(** * NewsBiasFHE: the bias-analysis contract, embedded and verified

    A shallow embedding of [contracts/NewsBiasFHE.sol].  Storage mappings are
    finite maps read with the Solidity default value, a public function is a
    function from the pre-state to either a post-state with the emitted
    events or a revert, and the fhEVM library, the ABI decoder and keccak256
    are parameters of the development. *)

From Stdlib Require Import ZArith String List Lia Bool.
From stdpp Require Import gmap strings list list_numbers fin_maps.

Local Open Scope string_scope.
Local Open Scope list_scope.
Local Open Scope Z_scope.

(** ** Solidity 0.8 execution model *)

Module Solidity.

Definition max_uint32 : Z := 2 ^ 32 - 1.
Definition max_uint256 : Z := 2 ^ 256 - 1.

(** What a reverting call reports. *)
Inductive failure :=
| Error (reason : string)   (* require(cond, reason) and revert(reason) *)
| Panic (code : Z)          (* compiler-inserted checks *)
| DecodeFailure             (* abi.decode on malformed bytes: revert, no data *)
| LibraryRevert.            (* a revert raised inside the FHE library *)

Inductive result (A : Type) :=
| Ok (a : A)
| Revert (f : failure).
Arguments Ok {A} a.
Arguments Revert {A} f.

Definition bind {A B} (r : result A) (k : A -> result B) : result B :=
  match r with
  | Ok a => k a
  | Revert f => Revert f
  end.

Definition require (cond : bool) (reason : string) : result unit :=
  if cond then Ok tt else Revert (Error reason).

Definition of_option {A} (o : option A) (f : failure) : result A :=
  match o with
  | Some a => Ok a
  | None => Revert f
  end.

(** Panic(0x11): arithmetic overflow or underflow outside [unchecked]. *)
Definition ArithmeticOverflow : failure := Panic 17.
(** Panic(0x32): array index out of bounds. *)
Definition IndexOutOfBounds : failure := Panic 50.
(** Panic(0x41): too much memory asked for, or an array too large. *)
Definition MemoryOverflow : failure := Panic 65.

(** What [abi.decode] makes of a byte array: the decoded value, a revert on
    bytes that do not encode one, or, for a dynamic array, the panic of the
    allocation that precedes the bounds check when the length word is too
    large for memory. *)
Inductive decoded (A : Type) :=
| Decoded (a : A)
| Malformed
| AllocationTooLarge.
Arguments Decoded {A} a.
Arguments Malformed {A}.
Arguments AllocationTooLarge {A}.

Definition of_decoded {A} (d : decoded A) : result A :=
  match d with
  | Decoded a => Ok a
  | Malformed => Revert DecodeFailure
  | AllocationTooLarge => Revert MemoryOverflow
  end.

Definition checked (max v : Z) : result Z :=
  if (0 <=? v) && (v <=? max) then Ok v else Revert ArithmeticOverflow.

Definition add32 (a b : Z) : result Z := checked max_uint32 (a + b).
Definition mul32 (a b : Z) : result Z := checked max_uint32 (a * b).
Definition sub32 (a b : Z) : result Z := checked max_uint32 (a - b).
Definition add256 (a b : Z) : result Z := checked max_uint256 (a + b).

(** [a[i]] on a memory array. *)
Definition index {A} (a : list A) (i : nat) : result A :=
  of_option (a !! i) IndexOutOfBounds.

Definition is_uint32 (v : Z) : Prop := 0 <= v <= max_uint32.

(** Observations of an outcome. *)
Definition succeeded {A} (r : result A) : bool :=
  match r with
  | Ok _ => true
  | Revert _ => false
  end.

Definition failure_of {A} (r : result A) : option failure :=
  match r with
  | Ok _ => None
  | Revert f => Some f
  end.

End Solidity.
Import Solidity.

(** The sequencing of statements that may revert uses stdpp's monad
    notation [x ← c; k]. *)
#[global] Instance result_mbind : MBind result := fun A B k r => bind r k.
#[global] Instance result_mret : MRet result := fun A a => Ok a.

(** ** The revert reasons of the contract, under the names the specification
    gives them *)

Definition Unauthorized : failure := Error "Unauthorized analyst".
Definition AlreadyAnalyzed : failure := Error "Analysis already completed".
Definition InvalidRequest : failure := Error "Invalid request".
Definition CategoryNotFound : failure := Error "Category not found".

(** ** Bias analysis algorithms (pure, on [uint32])

    Lines 164-188.  The arithmetic is the checked arithmetic of Solidity
    0.8 at the operands' type [uint32]; the literals take that type. *)

Definition calculateBiasScore (contentScore sentiment : Z) : result string :=
  a ← mul32 contentScore 2;
  b ← mul32 sentiment 3;
  sum ← add32 a b;
  let score := sum / 5 in
  if 80 <? score then Ok "HighlyBiased"
  else if 60 <? score then Ok "ModeratelyBiased"
  else if 40 <? score then Ok "SlightlyBiased"
  else Ok "Neutral".

Definition compareWithBaseline (contentScore sentiment : Z) : result string :=
  let baseline := 50 in
  contentDiff ← (if baseline <? contentScore
                  then sub32 contentScore baseline
                  else sub32 baseline contentScore);
  sentimentDiff ← (if baseline <? sentiment
                    then sub32 sentiment baseline
                    else sub32 baseline sentiment);
  if (30 <? contentDiff) || (30 <? sentimentDiff) then Ok "SignificantDeviation"
  else if (15 <? contentDiff) || (15 <? sentimentDiff) then Ok "ModerateDeviation"
  else Ok "WithinNormalRange".

Definition identifyMediaOutlet (keywords : Z) : string :=
  if keywords mod 5 =? 0 then "OutletA"
  else if keywords mod 5 =? 1 then "OutletB"
  else if keywords mod 5 =? 2 then "OutletC"
  else if keywords mod 5 =? 3 then "OutletD"
  else "OutletE".

(** ** The classifier as the specification words it

    These two follow the specification's section 4.4 on unbounded
    integers; the theorems below compare them with the contract's
    functions above. *)

Definition classifyBiasTier (contentScore sentiment : Z) : string :=
  let score := (contentScore * 2 + sentiment * 3) / 5 in
  if 80 <? score then "HighlyBiased"
  else if 60 <? score then "ModeratelyBiased"
  else if 40 <? score then "SlightlyBiased"
  else "Neutral".

Definition classifyDeviation (contentScore sentiment : Z) : string :=
  let baseline := 50 in
  let contentDiff := Z.abs (contentScore - baseline) in
  let sentimentDiff := Z.abs (sentiment - baseline) in
  if 30 <? Z.max contentDiff sentimentDiff then "SignificantDeviation"
  else if 15 <? Z.max contentDiff sentimentDiff then "ModerateDeviation"
  else "WithinNormalRange".

(** ** What the contract takes from outside its source

    [euint32] is the library's handle type, a [bytes32] read here as an
    unsigned integer, so that fresh storage holds the handle [0].  [bytes]
    is a dynamic byte array.  [FHEState] is everything the FHE library
    keeps: its own slice of the contract's storage (the request counter and
    the handles saved per request) and what its calls reach outside the
    contract (the coprocessor, the access-control list, the decryption
    oracle).  A library call that makes an external call or reads that
    state takes the state and returns the new one; a call that reverts
    returns [None].  [FHE.checkSignatures] also logs from the contract's
    own address, so it returns the library events it emitted.
    [abi.decode] to [uint32[]] has three outcomes: the decoded values, the
    decoder's revert on data that does not fit the layout, and the panic
    of the allocation when the length word asks for more memory than can
    be addressed. *)

Definition euint32 : Type := Z.
Definition address : Type := Z.
Definition bytes : Type := list Byte.byte.

Inductive selector :=
| analyzeBias_selector
| decryptBiasCount_selector.

(** The events the library emits in the contract's name. *)
Inductive library_event :=
| DecryptionFulfilled (requestID : Z).

Class Platform := {
  FHEState : Type;
  FHE_asEuint32 : FHEState -> Z -> option (euint32 * FHEState);
  FHE_add : FHEState -> euint32 -> euint32 -> option (euint32 * FHEState);
  FHE_isInitialized : euint32 -> bool;
  FHE_toBytes32 : euint32 -> Z;
  FHE_requestDecryption : FHEState -> list Z -> selector -> option (Z * FHEState);
  FHE_checkSignatures :
    FHEState -> Z -> bytes -> bytes -> option (FHEState * list library_event);
  (* abi.decode(_, (uint32[])) and abi.decode(_, (uint32)) *)
  abi_decode_uint32_array : bytes -> decoded (list Z);
  abi_decode_uint32 : bytes -> option Z;
  (* uint256(keccak256(abi.encodePacked(_))) *)
  keccak256_packed : string -> Z
}.

(** What the ledger's bookkeeping relies on: a handle the library returns is
    initialized, the zero handle of fresh storage is not. *)
Class PlatformLaws (P : Platform) : Prop := {
  zero_uninitialized : FHE_isInitialized 0 = false;
  asEuint32_initialized : forall f v h f',
    FHE_asEuint32 f v = Some (h, f') -> FHE_isInitialized h = true;
  add_initialized : forall f a b h f',
    FHE_add f a b = Some (h, f') -> FHE_isInitialized h = true
}.

(** ** Storage *)

Record EncryptedArticle := mkEncryptedArticle {
  articleId : Z;
  encryptedContent : euint32;
  encryptedSentiment : euint32;
  encryptedKeywords : euint32;
  timestamp : Z
}.

Record BiasAnalysis := mkBiasAnalysis {
  biasScore : string;
  comparisonResult : string;
  mediaOutlet : string;
  isAnalyzed : bool
}.

(** The values a mapping reads at a key never written. *)
Definition zeroArticle : EncryptedArticle := mkEncryptedArticle 0 0 0 0 0.
Definition zeroAnalysis : BiasAnalysis :=
  mkBiasAnalysis EmptyString EmptyString EmptyString false.

Inductive event :=
| ArticleSubmitted (articleId timestamp : Z)
| AnalysisRequested (articleId : Z)
| AnalysisCompleted (articleId : Z)
| FromLibrary (ev : library_event).

(** [msg.sender] and [block.timestamp] of a call. *)
Record Env := mkEnv {
  msg_sender : address;
  block_timestamp : Z
}.

Section Contract.
Context {P : Platform}.

Record State := mkState {
  articleCount : Z;
  articles : gmap Z EncryptedArticle;
  analyses : gmap Z BiasAnalysis;
  encryptedBiasCount : gmap string euint32;
  biasCategoryList : list string;
  requestToArticleId : gmap Z Z;
  authorizedAnalysts : gmap address bool;
  fhe : FHEState
}.

(** Mapping reads. *)
Definition articles_at (s : State) (id : Z) : EncryptedArticle :=
  default zeroArticle (articles s !! id).
Definition analyses_at (s : State) (id : Z) : BiasAnalysis :=
  default zeroAnalysis (analyses s !! id).
Definition count_at (m : gmap string euint32) (category : string) : euint32 :=
  default 0 (m !! category).
Definition request_at (s : State) (requestId : Z) : Z :=
  default 0 (requestToArticleId s !! requestId).
Definition is_analyst (s : State) (a : address) : bool :=
  default false (authorizedAnalysts s !! a).

(** The modifier [onlyAnalyst], lines 37-40. *)
Definition onlyAnalyst (e : Env) (s : State) : result unit :=
  require (is_analyst s (msg_sender e)) "Unauthorized analyst".

(** The constructor; [fhe0] is the library state that [SepoliaConfig]
    sets up. *)
Definition constructor (e : Env) (fhe0 : FHEState) : State :=
  {| articleCount := 0;
     articles := ∅;
     analyses := ∅;
     encryptedBiasCount := ∅;
     biasCategoryList := [];
     requestToArticleId := ∅;
     authorizedAnalysts := {[ msg_sender e := true ]};
     fhe := fhe0 |}.

(** Lines 46-48. *)
Definition authorizeAnalyst (e : Env) (analyst : address) (s : State)
  : result (State * list event) :=
  onlyAnalyst e s;;
  Ok ({| articleCount := articleCount s;
         articles := articles s;
         analyses := analyses s;
         encryptedBiasCount := encryptedBiasCount s;
         biasCategoryList := biasCategoryList s;
         requestToArticleId := requestToArticleId s;
         authorizedAnalysts := <[ analyst := true ]> (authorizedAnalysts s);
         fhe := fhe s |}, []).

(** Lines 50-74. *)
Definition submitEncryptedArticle (e : Env)
    (encContent encSentiment encKeywords : euint32) (s : State)
  : result (State * list event) :=
  onlyAnalyst e s;;
  newId ← add256 (articleCount s) 1;
  Ok ({| articleCount := newId;
         articles :=
           <[ newId := {| articleId := newId;
                          encryptedContent := encContent;
                          encryptedSentiment := encSentiment;
                          encryptedKeywords := encKeywords;
                          timestamp := block_timestamp e |} ]> (articles s);
         analyses :=
           <[ newId := {| biasScore := EmptyString;
                          comparisonResult := EmptyString;
                          mediaOutlet := EmptyString;
                          isAnalyzed := false |} ]> (analyses s);
         encryptedBiasCount := encryptedBiasCount s;
         biasCategoryList := biasCategoryList s;
         requestToArticleId := requestToArticleId s;
         authorizedAnalysts := authorizedAnalysts s;
         fhe := fhe s |},
      [ArticleSubmitted newId (block_timestamp e)]).

(** The three handles handed to the decryption service. *)
Definition article_ciphertexts (article : EncryptedArticle) : list Z :=
  [FHE_toBytes32 (encryptedContent article);
   FHE_toBytes32 (encryptedSentiment article);
   FHE_toBytes32 (encryptedKeywords article)].

(** Lines 76-89.  No test is made that [id] was ever assigned. *)
Definition requestBiasAnalysis (e : Env) (id : Z) (s : State)
  : result (State * list event) :=
  onlyAnalyst e s;;
  let article := articles_at s id in
  require (negb (isAnalyzed (analyses_at s id))) "Analysis already completed";;
  let ciphertexts := article_ciphertexts article in
  '(reqId, fhe') ← of_option
      (FHE_requestDecryption (fhe s) ciphertexts analyzeBias_selector)
      LibraryRevert;
  Ok ({| articleCount := articleCount s;
         articles := articles s;
         analyses := analyses s;
         encryptedBiasCount := encryptedBiasCount s;
         biasCategoryList := biasCategoryList s;
         requestToArticleId := <[ reqId := id ]> (requestToArticleId s);
         authorizedAnalysts := authorizedAnalysts s;
         fhe := fhe' |},
      [AnalysisRequested id]).

(** Lines 114-121: create the category's counter on first use, then add
    one to it.  Each of [FHE.asEuint32] and [FHE.add] is a call into the
    library that may revert; the arguments of [FHE.add] are evaluated from
    left to right, the counter read first. *)
Definition tally (category : string) (counts : gmap string euint32)
    (categories : list string) (f : FHEState)
  : result (gmap string euint32 * list string * FHEState) :=
  '(counts1, categories1, f1) ←
    (if negb (FHE_isInitialized (count_at counts category))
     then '(zero, f1) ← of_option (FHE_asEuint32 f 0) LibraryRevert;
          Ok (<[ category := zero ]> counts, categories ++ [category], f1)
     else Ok (counts, categories, f));
  '(one, f2) ← of_option (FHE_asEuint32 f1 1) LibraryRevert;
  '(sum, f3) ← of_option (FHE_add f2 (count_at counts1 category) one)
                         LibraryRevert;
  Ok (<[ category := sum ]> counts1, categories1, f3).

(** Lines 91-124.  The function has no modifier and does not read
    [msg.sender]; [requestToArticleId] is read and never written. *)
Definition analyzeBias (requestId : Z) (cleartexts proof : bytes) (s : State)
  : result (State * list event) :=
  let id := request_at s requestId in
  require (negb (id =? 0)) "Invalid request";;
  let analysis := analyses_at s id in
  require (negb (isAnalyzed analysis)) "Analysis already completed";;
  '(fhe1, logged) ← of_option
      (FHE_checkSignatures (fhe s) requestId cleartexts proof) LibraryRevert;
  results ← of_decoded (abi_decode_uint32_array cleartexts);
  contentScore ← index results 0;
  sentiment ← index results 1;
  keywords ← index results 2;
  score ← calculateBiasScore contentScore sentiment;
  comparison ← compareWithBaseline contentScore sentiment;
  let analysis' := {| biasScore := score;
                      comparisonResult := comparison;
                      mediaOutlet := identifyMediaOutlet keywords;
                      isAnalyzed := true |} in
  '(counts, categories, fhe2) ←
    tally (biasScore analysis') (encryptedBiasCount s) (biasCategoryList s) fhe1;
  Ok ({| articleCount := articleCount s;
         articles := articles s;
         analyses := <[ id := analysis' ]> (analyses s);
         encryptedBiasCount := counts;
         biasCategoryList := categories;
         requestToArticleId := requestToArticleId s;
         authorizedAnalysts := authorizedAnalysts s;
         fhe := fhe2 |},
      map FromLibrary logged ++ [AnalysisCompleted id]).

(** Lines 126-134, a view that cannot revert. *)
Definition getBiasAnalysis (id : Z) (s : State) : string * string * string * bool :=
  let ba := analyses_at s id in
  (biasScore ba, comparisonResult ba, mediaOutlet ba, isAnalyzed ba).

Definition getEncryptedBiasCount (category : string) (s : State) : euint32 :=
  count_at (encryptedBiasCount s) category.

(** Lines 140-149. *)
Definition requestBiasCountDecryption (e : Env) (category : string) (s : State)
  : result (State * list event) :=
  onlyAnalyst e s;;
  let count := count_at (encryptedBiasCount s) category in
  require (FHE_isInitialized count) "Category not found";;
  let ciphertexts := [FHE_toBytes32 count] in
  '(reqId, fhe') ← of_option
      (FHE_requestDecryption (fhe s) ciphertexts decryptBiasCount_selector)
      LibraryRevert;
  Ok ({| articleCount := articleCount s;
         articles := articles s;
         analyses := analyses s;
         encryptedBiasCount := encryptedBiasCount s;
         biasCategoryList := biasCategoryList s;
         requestToArticleId :=
           <[ reqId := keccak256_packed category ]> (requestToArticleId s);
         authorizedAnalysts := authorizedAnalysts s;
         fhe := fhe' |},
      []).

(** The loop of [getBiasCategoryFromHash], as a scan of the entries not
    yet visited. *)
Fixpoint scanCategories (categories : list string) (hash : Z) : result string :=
  match categories with
  | [] => Revert CategoryNotFound
  | c :: rest =>
      if keccak256_packed c =? hash then Ok c else scanCategories rest hash
  end.

Definition getBiasCategoryFromHash (hash : Z) (s : State) : result string :=
  scanCategories (biasCategoryList s) hash.

(** Lines 151-161. *)
Definition decryptBiasCount (e : Env) (requestId : Z) (cleartexts proof : bytes)
    (s : State) : result (State * list event) :=
  onlyAnalyst e s;;
  let biasCategoryHash := request_at s requestId in
  biasCategory ← getBiasCategoryFromHash biasCategoryHash s;
  '(fhe', logged) ← of_option
      (FHE_checkSignatures (fhe s) requestId cleartexts proof) LibraryRevert;
  count ← of_option (abi_decode_uint32 cleartexts) DecodeFailure;
  Ok ({| articleCount := articleCount s;
         articles := articles s;
         analyses := analyses s;
         encryptedBiasCount := encryptedBiasCount s;
         biasCategoryList := biasCategoryList s;
         requestToArticleId := requestToArticleId s;
         authorizedAnalysts := authorizedAnalysts s;
         fhe := fhe' |},
      map FromLibrary logged).

(** *** Transactions *)

Inductive call :=
| AuthorizeAnalyst (analyst : address)
| SubmitEncryptedArticle (encContent encSentiment encKeywords : euint32)
| RequestBiasAnalysis (id : Z)
| AnalyzeBias (requestId : Z) (cleartexts proof : bytes)
| RequestBiasCountDecryption (category : string)
| DecryptBiasCount (requestId : Z) (cleartexts proof : bytes).

Definition exec (e : Env) (c : call) (s : State) : result (State * list event) :=
  match c with
  | AuthorizeAnalyst analyst => authorizeAnalyst e analyst s
  | SubmitEncryptedArticle c1 c2 c3 => submitEncryptedArticle e c1 c2 c3 s
  | RequestBiasAnalysis id => requestBiasAnalysis e id s
  | AnalyzeBias r ct pf => analyzeBias r ct pf s
  | RequestBiasCountDecryption category => requestBiasCountDecryption e category s
  | DecryptBiasCount r ct pf => decryptBiasCount e r ct pf s
  end.

(** The storage after a transaction: a revert rolls every write back. *)
Definition post (s : State) (r : result (State * list event)) : State :=
  match r with
  | Ok (s', _) => s'
  | Revert _ => s
  end.

Definition emitted (r : result (State * list event)) : list event :=
  match r with
  | Ok (_, evs) => evs
  | Revert _ => []
  end.

(** A history of transactions, run in order; the log collects the events
    of those that did not revert. *)
Fixpoint run (txs : list (Env * call)) (s : State) : State * list event :=
  match txs with
  | [] => (s, [])
  | (e, c) :: rest =>
      let r := exec e c s in
      let '(s', log) := run rest (post s r) in
      (s', emitted r ++ log)
  end.

Inductive reachable : State -> Prop :=
| reachable_constructor e fhe0 : reachable (constructor e fhe0)
| reachable_step s e c s' evs :
    reachable s -> exec e c s = Ok (s', evs) -> reachable s'.

(** The article ids announced by [ArticleSubmitted] events, in order. *)
Definition submitted_ids (log : list event) : list Z :=
  omap (fun ev => match ev with
                  | ArticleSubmitted id _ => Some id
                  | _ => None
                  end) log.

(** An id that a submission has assigned. *)
Definition assigned (s : State) (id : Z) : Prop := 1 <= id <= articleCount s.

(** *** Relations and invariants used by the proofs *)

(** The fields that only a submission or a callback writes. *)
Definition same_records (s s' : State) : Prop :=
  articleCount s' = articleCount s /\
  articles s' = articles s /\
  analyses s' = analyses s /\
  encryptedBiasCount s' = encryptedBiasCount s /\
  biasCategoryList s' = biasCategoryList s.

(** The counter is never negative, slot 0 of [analyses] is never marked
    analyzed, and [articles] holds a record only at assigned ids. *)
Definition ids_inv (s : State) : Prop :=
  0 <= articleCount s /\
  isAnalyzed (analyses_at s 0) = false /\
  (forall id, ~ assigned s id -> articles s !! id = None).

(** The discovery list and the counter map in lock-step: no label twice,
    and a label is listed exactly when its counter has been written,
    which is exactly when its handle is initialized. *)
Definition ledger_inv (counts : gmap string euint32) (categories : list string)
  : Prop :=
  NoDup categories /\
  (forall c, c ∈ categories <-> is_Some (counts !! c)) /\
  (forall c, c ∈ categories <-> FHE_isInitialized (count_at counts c) = true).

End Contract.

Arguments State : clear implicits.

(** ** Further notions used by the properties *)

(** The labels the three classifiers can return. *)
Definition bias_tiers : list string :=
  ["HighlyBiased"; "ModeratelyBiased"; "SlightlyBiased"; "Neutral"].
Definition deviation_classes : list string :=
  ["SignificantDeviation"; "ModerateDeviation"; "WithinNormalRange"].
Definition outlets : list string :=
  ["OutletA"; "OutletB"; "OutletC"; "OutletD"; "OutletE"].

(** A stored analysis is either the empty record of a submission or a
    completed one whose three labels come from the classifiers. *)
Definition analysis_wf (ba : BiasAnalysis) : Prop :=
  ba = zeroAnalysis
  \/ (isAnalyzed ba = true /\
      biasScore ba ∈ bias_tiers /\
      comparisonResult ba ∈ deviation_classes /\
      mediaOutlet ba ∈ outlets).

(** The calls that carry the [onlyAnalyst] modifier. *)
Definition gated (c : call) : bool :=
  match c with
  | AnalyzeBias _ _ _ => false
  | _ => true
  end.

(** How often a log announces the completion of article [id]. *)
Fixpoint completions (id : Z) (log : list event) : nat :=
  match log with
  | [] => 0%nat
  | AnalysisCompleted i :: rest =>
      if i =? id then S (completions id rest) else completions id rest
  | _ :: rest => completions id rest
  end.

Section Notions.
Context {P : Platform}.

(** The state with the library's slice replaced and nothing else. *)
Definition with_fhe (s : State P) (f : FHEState) : State P :=
  {| articleCount := articleCount s;
     articles := articles s;
     analyses := analyses s;
     encryptedBiasCount := encryptedBiasCount s;
     biasCategoryList := biasCategoryList s;
     requestToArticleId := requestToArticleId s;
     authorizedAnalysts := authorizedAnalysts s;
     fhe := f |}.

(** Every assigned slot of [articles] holds a record carrying its own id. *)
Definition articles_self (s : State P) : Prop :=
  forall id, assigned s id -> articleId (articles_at s id) = id.

(** Every slot of [analyses] is well formed. *)
Definition analyses_wf (s : State P) : Prop :=
  forall id, analysis_wf (analyses_at s id).

(** The discovery list holds bias tiers only. *)
Definition categories_are_tiers (s : State P) : Prop :=
  forall c, c ∈ biasCategoryList s -> c ∈ bias_tiers.

(** No two listed categories share a hash. *)
Definition hash_injective_on (categories : list string) : Prop :=
  forall c c', c ∈ categories -> c' ∈ categories ->
               keccak256_packed c = keccak256_packed c' -> c = c'.

End Notions.

(** ** A reference platform

    A small executable stand-in for the FHE library and the EVM builtins, on
    which the contract can be run: request ids come from a counter, every
    proof is accepted, handles are made non-zero, and [abi.decode] reads the
    standard head/tail layout of 32-byte big-endian words. *)

Module Reference.

Definition be_word (w : list Byte.byte) : Z :=
  fold_left (fun acc b => acc * 256 + Z.of_N (Byte.to_N b)) w 0.

Definition word_at (data : bytes) (off : Z) : option Z :=
  if 0 <=? off then
    let w := take 32 (drop (Z.to_nat off) data) in
    if Nat.eqb (length w) 32 then Some (be_word w) else None
  else None.

Definition uint32_at (data : bytes) (off : Z) : option Z :=
  w ← word_at data off;
  if w <=? max_uint32 then Some w else None.

Definition decode_uint32 (data : bytes) : option Z := uint32_at data 0.

(** The array decoder: the offset and the length word are read, memory for
    the elements is allocated, and only then is the length held against the
    data and each element validated.  The allocation of [32 * len + 32]
    bytes panics once the free-memory pointer would pass [2^64 - 1]; for
    lengths from [2^59] up it does so whatever memory is already in use,
    and that is the bound taken here (the memory in use, which would move
    the bound down by a few words, is not tracked). *)
Definition decode_uint32_array (data : bytes) : decoded (list Z) :=
  match word_at data 0 with
  | None => Malformed
  | Some off =>
      if 2 ^ 64 - 1 <? off then Malformed
      else match word_at data off with
           | None => Malformed
           | Some len =>
               if 2 ^ 59 <=? len then AllocationTooLarge
               else if off + 32 + 32 * len <=? Z.of_nat (length data)
               then match mapM (fun i => uint32_at data (off + 32 + 32 * i))
                               (seqZ 0 len) with
                    | Some values => Decoded values
                    | None => Malformed
                    end
               else Malformed
           end
  end.

Definition encode_word (v : Z) : bytes :=
  map (fun i : nat =>
         default Byte.x00
           (Byte.of_N (Z.to_N ((v / 256 ^ Z.of_nat (31 - i)) mod 256))))
      (seq 0 32).

Definition encode_uint32_array (l : list Z) : bytes :=
  encode_word 32 ++ encode_word (Z.of_nat (length l)) ++ concat (map encode_word l).

Definition hash_string (label : string) : Z :=
  fold_left (fun acc c => (acc * 257 + Z.of_nat (Ascii.nat_of_ascii c) + 1)
                            mod 2 ^ 256)
            (list_ascii_of_string label) 0.

#[export] Instance platform : Platform := {|
  FHEState := Z;
  FHE_asEuint32 := fun counter v => Some (2 * Z.abs v + 1, counter);
  FHE_add := fun counter a b => Some (Z.abs a + Z.abs b + 1, counter);
  FHE_isInitialized := fun h => negb (h =? 0);
  FHE_toBytes32 := fun h => h;
  FHE_requestDecryption := fun counter _ _ => Some (counter, counter + 1);
  FHE_checkSignatures :=
    fun counter requestId _ _ => Some (counter, [DecryptionFulfilled requestId]);
  abi_decode_uint32_array := decode_uint32_array;
  abi_decode_uint32 := decode_uint32;
  keccak256_packed := hash_string
|}.

(** The deployer, who is the first analyst, and an address that is never
    authorized. *)
Definition deployer : Env := {| msg_sender := 4096; block_timestamp := 1700000000 |}.
Definition stranger : Env := {| msg_sender := 57005; block_timestamp := 1700000600 |}.

(** The specification's end-to-end scenario: deploy, submit one article,
    request its analysis, deliver the callback. *)
Definition deployed : State platform := constructor deployer 0.
Definition submitted : State platform :=
  post deployed (exec deployer (SubmitEncryptedArticle 11 12 13) deployed).
Definition requested : State platform :=
  post submitted (exec deployer (RequestBiasAnalysis 1) submitted).
Definition payload : bytes := encode_uint32_array [90; 90; 7].
Definition analyzed : State platform :=
  post requested (exec stranger (AnalyzeBias 0 payload []) requested).

(** A second request for article 1 while the first is still outstanding. *)
Definition requested_twice : State platform :=
  post requested (exec deployer (RequestBiasAnalysis 1) requested).

(** A request made for id 1 before any submission, its callback, and the
    submission that then assigns id 1. *)
Definition early_history : list (Env * call) :=
  [(deployer, RequestBiasAnalysis 1);
   (stranger, AnalyzeBias 0 payload []);
   (deployer, SubmitEncryptedArticle 11 12 13)].
Definition assigned_late : State platform := (run early_history deployed).1.

(** Cleartexts whose array length word is [2^59]. *)
Definition oversized : bytes := encode_word 32 ++ encode_word (2 ^ 59).

End Reference.

(** Closed comparisons of integers, settled by evaluation. *)
Ltac by_evaluation :=
  vm_compute; repeat split; solve [reflexivity | discriminate].

(** * Properties *)

(** ** Checked arithmetic *)

Lemma max_uint32_val : max_uint32 = 4294967295.
Proof. reflexivity. Qed.

Lemma checked_in_range max v : 0 <= v <= max -> checked max v = Ok v.
Proof.
  intros [Hlo Hhi]. unfold checked.
  apply Z.leb_le in Hlo. apply Z.leb_le in Hhi.
  now rewrite Hlo, Hhi.
Qed.

Lemma checked_above max v : max < v -> checked max v = Revert ArithmeticOverflow.
Proof.
  intros Hgt. unfold checked.
  apply Z.leb_gt in Hgt. rewrite Hgt.
  now rewrite andb_false_r.
Qed.


Lemma checked_inv max v w : checked max v = Ok w -> w = v /\ 0 <= v <= max.
Proof.
  unfold checked.
  destruct (0 <=? v) eqn:Hlo, (v <=? max) eqn:Hhi; simpl; intros Heq;
    inversion Heq; subst.
  apply Z.leb_le in Hlo. apply Z.leb_le in Hhi. auto.
Qed.

(** ** The classifier *)

(** The label [calculateBiasScore] picks once the weighted sum is known to
    fit. *)
Lemma calculateBiasScore_fits contentScore sentiment :
  is_uint32 contentScore -> is_uint32 sentiment ->
  contentScore * 2 + sentiment * 3 <= max_uint32 ->
  calculateBiasScore contentScore sentiment
  = Ok (classifyBiasTier contentScore sentiment).
Proof.
  unfold is_uint32. intros Hc Hs Hsum.
  unfold calculateBiasScore, mul32, add32, classifyBiasTier.
  rewrite (checked_in_range _ (contentScore * 2)) by lia. simpl.
  rewrite (checked_in_range _ (sentiment * 3)) by lia. simpl.
  rewrite (checked_in_range _ (contentScore * 2 + sentiment * 3)) by lia. simpl.
  repeat (destruct (_ <? _); try reflexivity).
Qed.

Lemma calculateBiasScore_overflows contentScore sentiment :
  is_uint32 contentScore -> is_uint32 sentiment ->
  max_uint32 < contentScore * 2 + sentiment * 3 ->
  calculateBiasScore contentScore sentiment = Revert ArithmeticOverflow.
Proof.
  unfold is_uint32. intros Hc Hs Hsum.
  unfold calculateBiasScore, mul32, add32.
  destruct (Z_le_gt_dec (contentScore * 2) max_uint32) as [Ha | Ha].
  - rewrite (checked_in_range _ (contentScore * 2)) by lia. simpl.
    destruct (Z_le_gt_dec (sentiment * 3) max_uint32) as [Hb | Hb].
    + rewrite (checked_in_range _ (sentiment * 3)) by lia. simpl.
      now rewrite (checked_above _ (contentScore * 2 + sentiment * 3)) by lia.
    + now rewrite (checked_above _ (sentiment * 3)) by lia.
  - now rewrite (checked_above _ (contentScore * 2)) by lia.
Qed.

Lemma classifyBiasTier_cases contentScore sentiment :
  let score := (contentScore * 2 + sentiment * 3) / 5 in
  (80 < score -> classifyBiasTier contentScore sentiment = "HighlyBiased") /\
  (60 < score <= 80 -> classifyBiasTier contentScore sentiment = "ModeratelyBiased") /\
  (40 < score <= 60 -> classifyBiasTier contentScore sentiment = "SlightlyBiased") /\
  (score <= 40 -> classifyBiasTier contentScore sentiment = "Neutral").
Proof.
  intros score. unfold classifyBiasTier. fold score.
  destruct (Z.ltb_spec 80 score), (Z.ltb_spec 60 score), (Z.ltb_spec 40 score);
    repeat split; intros; solve [reflexivity | lia].
Qed.

(** C5, as the code has it: on [uint32] inputs whose weighted sum
    [contentScore*2 + sentiment*3] fits in 32 bits, [calculateBiasScore]
    returns the label of [score = (contentScore*2 + sentiment*3) / 5] under
    the descending thresholds: above 80 "HighlyBiased", above 60
    "ModeratelyBiased", above 40 "SlightlyBiased", otherwise "Neutral"; so a
    score of exactly 80 is "ModeratelyBiased", a score of exactly 40 is
    "Neutral", and (100,100) is "HighlyBiased". *)
Theorem calculateBiasScore_classifies contentScore sentiment :
  is_uint32 contentScore -> is_uint32 sentiment ->
  contentScore * 2 + sentiment * 3 <= max_uint32 ->
  let score := (contentScore * 2 + sentiment * 3) / 5 in
  calculateBiasScore contentScore sentiment
    = Ok (classifyBiasTier contentScore sentiment) /\
  (80 < score ->
     calculateBiasScore contentScore sentiment = Ok "HighlyBiased") /\
  (60 < score <= 80 ->
     calculateBiasScore contentScore sentiment = Ok "ModeratelyBiased") /\
  (40 < score <= 60 ->
     calculateBiasScore contentScore sentiment = Ok "SlightlyBiased") /\
  (score <= 40 ->
     calculateBiasScore contentScore sentiment = Ok "Neutral") /\
  calculateBiasScore 100 100 = Ok "HighlyBiased".
Proof.
  intros Hc Hs Hsum score.
  rewrite (calculateBiasScore_fits _ _ Hc Hs Hsum).
  destruct (classifyBiasTier_cases contentScore sentiment) as (H1 & H2 & H3 & H4).
  fold score in H1, H2, H3, H4.
  repeat split; try reflexivity; intros Hsc;
    [rewrite H1 | rewrite H2 | rewrite H3 | rewrite H4]; auto.
Qed.

Lemma calculateBiasScore_classifies_witness :
  calculateBiasScore 80 80 = Ok "ModeratelyBiased"
  /\ calculateBiasScore 40 40 = Ok "Neutral".
Proof.
  assert (H80 : is_uint32 80) by by_evaluation.
  assert (H40 : is_uint32 40) by by_evaluation.
  split.
  - refine (proj1 (proj2 (proj2 (calculateBiasScore_classifies 80 80 H80 H80 _))) _).
    + by_evaluation.
    + by_evaluation.
  - refine (proj1 (proj2 (proj2 (proj2 (proj2
              (calculateBiasScore_classifies 40 40 H40 H40 _))))) _).
    + by_evaluation.
    + by_evaluation.
Defined.

(** C5 as stated fails: at the [uint32] pair (2^31, 0) the product
    [contentScore * 2] leaves the 32-bit range and the call panics, where
    the stated rule gives a label. *)
Lemma calculateBiasScore_total_counterexample :
  is_uint32 2147483648 /\ is_uint32 0 /\
  classifyBiasTier 2147483648 0 = "HighlyBiased" /\
  calculateBiasScore 2147483648 0 = Revert ArithmeticOverflow /\
  ~ (forall contentScore sentiment,
       is_uint32 contentScore -> is_uint32 sentiment ->
       calculateBiasScore contentScore sentiment
       = Ok (classifyBiasTier contentScore sentiment)).
Proof.
  assert (Hc : is_uint32 2147483648) by by_evaluation.
  assert (Hs : is_uint32 0) by by_evaluation.
  repeat split; try apply Hc; try apply Hs; try reflexivity.
  intros Hall. specialize (Hall 2147483648 0 Hc Hs). discriminate Hall.
Qed.


Lemma abs_diff_50_ok v :
  is_uint32 v ->
  (if 50 <? v then sub32 v 50 else sub32 50 v) = Ok (Z.abs (v - 50)).
Proof.
  unfold is_uint32, sub32. rewrite max_uint32_val. intros Hv.
  destruct (Z.ltb_spec 50 v) as [Hlt | Hge].
  - rewrite checked_in_range by lia. f_equal. lia.
  - rewrite checked_in_range by lia. f_equal. lia.
Qed.

Lemma orb_ltb_max k a b : (k <? a) || (k <? b) = (k <? Z.max a b).
Proof.
  destruct (Z.ltb_spec k a), (Z.ltb_spec k b), (Z.ltb_spec k (Z.max a b));
    simpl; try reflexivity; lia.
Qed.

(** C6: on every pair of [uint32] inputs [compareWithBaseline] returns, and
    the label is fixed by the larger of [|contentScore - 50|] and
    [|sentiment - 50|]: "SignificantDeviation" above 30, "ModerateDeviation"
    above 15 up to 30, otherwise "WithinNormalRange"; (80,50) is moderate
    and (81,50) is significant. *)
Theorem compareWithBaseline_classifies contentScore sentiment :
  is_uint32 contentScore -> is_uint32 sentiment ->
  let largest := Z.max (Z.abs (contentScore - 50)) (Z.abs (sentiment - 50)) in
  compareWithBaseline contentScore sentiment
    = Ok (classifyDeviation contentScore sentiment) /\
  (30 < largest ->
     compareWithBaseline contentScore sentiment = Ok "SignificantDeviation") /\
  (15 < largest <= 30 ->
     compareWithBaseline contentScore sentiment = Ok "ModerateDeviation") /\
  (largest <= 15 ->
     compareWithBaseline contentScore sentiment = Ok "WithinNormalRange") /\
  compareWithBaseline 80 50 = Ok "ModerateDeviation" /\
  compareWithBaseline 81 50 = Ok "SignificantDeviation".
Proof.
  intros Hc Hs largest.
  assert (Heq : compareWithBaseline contentScore sentiment
                = Ok (classifyDeviation contentScore sentiment)).
  { unfold compareWithBaseline, classifyDeviation.
    rewrite (abs_diff_50_ok _ Hc). simpl.
    rewrite (abs_diff_50_ok _ Hs). simpl.
    rewrite !orb_ltb_max.
    repeat (destruct (_ <? _); try reflexivity). }
  rewrite Heq. unfold classifyDeviation. fold largest.
  destruct (Z.ltb_spec 30 largest), (Z.ltb_spec 15 largest);
    repeat split; intros; solve [reflexivity | lia].
Qed.

Lemma compareWithBaseline_classifies_witness :
  compareWithBaseline 35 50 = Ok "WithinNormalRange".
Proof.
  assert (H35 : is_uint32 35) by by_evaluation.
  assert (H50 : is_uint32 50) by by_evaluation.
  refine (proj1 (proj2 (proj2 (proj2
            (compareWithBaseline_classifies 35 50 H35 H50)))) _).
  by_evaluation.
Defined.

(** C10: [calculateBiasScore] works on checked 32-bit arithmetic.  On
    [uint32] inputs it returns a label exactly when
    [contentScore*2 + sentiment*3] fits in 32 bits; when a product or the
    sum exceeds [2^32 - 1], as for every [contentScore >= 2^31], it aborts
    with the arithmetic-overflow panic. *)
Theorem calculateBiasScore_checked contentScore sentiment :
  is_uint32 contentScore -> is_uint32 sentiment ->
  ((exists label, calculateBiasScore contentScore sentiment = Ok label)
     <-> contentScore * 2 + sentiment * 3 <= max_uint32) /\
  (max_uint32 < contentScore * 2 \/ max_uint32 < sentiment * 3
     \/ max_uint32 < contentScore * 2 + sentiment * 3 ->
   calculateBiasScore contentScore sentiment = Revert ArithmeticOverflow) /\
  (2 ^ 31 <= contentScore ->
   calculateBiasScore contentScore sentiment = Revert ArithmeticOverflow).
Proof.
  intros Hc Hs.
  assert (Hover : max_uint32 < contentScore * 2 + sentiment * 3 ->
                  calculateBiasScore contentScore sentiment
                  = Revert ArithmeticOverflow)
    by (apply calculateBiasScore_overflows; assumption).
  unfold is_uint32 in Hc, Hs. split; [split | split].
  - intros [label Hlabel].
    destruct (Z_le_gt_dec (contentScore * 2 + sentiment * 3) max_uint32)
      as [Hfit | Hbig]; [assumption |].
    rewrite Hover in Hlabel by lia. discriminate Hlabel.
  - intros Hfit. exists (classifyBiasTier contentScore sentiment).
    now apply calculateBiasScore_fits.
  - intros Hbig. apply Hover. lia.
  - intros Hbig. apply Hover. rewrite max_uint32_val.
    change (2 ^ 31) with 2147483648 in Hbig. lia.
Qed.

Lemma calculateBiasScore_checked_witness :
  calculateBiasScore 2147483648 7 = Revert ArithmeticOverflow.
Proof.
  assert (Hc : is_uint32 2147483648) by by_evaluation.
  assert (Hs : is_uint32 7) by by_evaluation.
  refine (proj2 (proj2 (calculateBiasScore_checked 2147483648 7 Hc Hs)) _).
  by_evaluation.
Defined.

(** ** Sequencing *)

Lemma bind_Ok_inv {A B} (c : result A) (k : A -> result B) b :
  (x ← c; k x) = Ok b -> exists a, c = Ok a /\ k a = Ok b.
Proof. destruct c as [a | f]; simpl; intros Heq; [eauto | discriminate]. Qed.

Lemma bind_Revert_inv {A B} (c : result A) (k : A -> result B) f :
  (x ← c; k x) = Revert f -> c = Revert f \/ exists a, c = Ok a /\ k a = Revert f.
Proof. destruct c as [a | f']; simpl; intros Heq; [eauto | left; congruence]. Qed.

Lemma require_Ok_inv cond reason u : require cond reason = Ok u -> cond = true.
Proof. destruct cond; simpl; [reflexivity | discriminate]. Qed.

Lemma require_Revert_inv cond reason f :
  require cond reason = Revert f -> cond = false /\ f = Error reason.
Proof. destruct cond; simpl; intros Heq; [discriminate | split; congruence]. Qed.

Lemma of_option_Ok_inv {A} (o : option A) f a : of_option o f = Ok a -> o = Some a.
Proof. destruct o; simpl; congruence. Qed.

Lemma of_option_Revert_inv {A} (o : option A) f f' :
  of_option o f = Revert f' -> o = None /\ f' = f.
Proof. destruct o; simpl; intros Heq; [discriminate | split; congruence]. Qed.

Lemma index_Revert_inv {A} (l : list A) i f :
  index l i = Revert f -> f = IndexOutOfBounds.
Proof. unfold index. intros Heq. now apply of_option_Revert_inv in Heq. Qed.

Lemma checked_Revert_inv max v f : checked max v = Revert f -> f = ArithmeticOverflow.
Proof. unfold checked. destruct (_ && _); congruence. Qed.

Lemma calculateBiasScore_Revert_inv contentScore sentiment f :
  calculateBiasScore contentScore sentiment = Revert f -> f = ArithmeticOverflow.
Proof.
  unfold calculateBiasScore, mul32, add32. intros Heq.
  apply bind_Revert_inv in Heq as [Heq | (a & _ & Heq)];
    [now apply checked_Revert_inv in Heq |].
  apply bind_Revert_inv in Heq as [Heq | (b & _ & Heq)];
    [now apply checked_Revert_inv in Heq |].
  apply bind_Revert_inv in Heq as [Heq | (sum & _ & Heq)];
    [now apply checked_Revert_inv in Heq |].
  repeat (destruct (_ <? _) in Heq; try discriminate Heq).
Qed.

Lemma compareWithBaseline_Revert_inv contentScore sentiment f :
  compareWithBaseline contentScore sentiment = Revert f -> f = ArithmeticOverflow.
Proof.
  unfold compareWithBaseline, sub32. intros Heq.
  apply bind_Revert_inv in Heq as [Heq | (a & _ & Heq)].
  { destruct (_ <? _) in Heq; now apply checked_Revert_inv in Heq. }
  apply bind_Revert_inv in Heq as [Heq | (b & _ & Heq)].
  { destruct (_ <? _) in Heq; now apply checked_Revert_inv in Heq. }
  repeat (destruct (_ || _) in Heq; try discriminate Heq).
Qed.

(** ** The callback, inverted *)

Section Callback.
Context {P : Platform}.

Lemma of_decoded_Ok_inv {A} (d : decoded A) a : of_decoded d = Ok a -> d = Decoded a.
Proof. destruct d; cbn; congruence. Qed.

Lemma of_decoded_Revert_inv {A} (d : decoded A) f :
  of_decoded d = Revert f ->
  (d = Malformed /\ f = DecodeFailure) \/ (d = AllocationTooLarge /\ f = MemoryOverflow).
Proof. destruct d; cbn; intros Heq; inversion Heq; auto. Qed.

(** The counter's bookkeeping, inverted: which library calls were made and
    what was written. *)
Lemma tally_Ok_inv category counts categories f counts' categories' f' :
  tally category counts categories f = Ok (counts', categories', f') ->
  exists base counts1 f1 one f2 sum,
    ((FHE_isInitialized (count_at counts category) = true /\
      base = count_at counts category /\ counts1 = counts /\
      categories' = categories /\ f1 = f)
     \/ (FHE_isInitialized (count_at counts category) = false /\
         FHE_asEuint32 f 0 = Some (base, f1) /\
         counts1 = <[ category := base ]> counts /\
         categories' = categories ++ [category])) /\
    FHE_asEuint32 f1 1 = Some (one, f2) /\
    FHE_add f2 base one = Some (sum, f') /\
    counts' = <[ category := sum ]> counts1.
Proof.
  unfold tally. intros Heq.
  apply bind_Ok_inv in Heq as ([[counts1 categories1] f1] & Hfirst & Heq).
  cbv beta iota in Heq.
  apply bind_Ok_inv in Heq as ([one f2] & Hone & Heq).
  apply of_option_Ok_inv in Hone. cbv beta iota in Heq.
  apply bind_Ok_inv in Heq as ([sum f3] & Hsum & Heq).
  apply of_option_Ok_inv in Hsum. cbv beta iota in Heq.
  inversion Heq; subst counts' categories' f'; clear Heq.
  destruct (FHE_isInitialized (count_at counts category)) eqn:Hinit;
    cbn [negb] in Hfirst.
  - inversion Hfirst; subst counts1 categories1 f1; clear Hfirst.
    exists (count_at counts category), counts, f, one, f2, sum.
    split; [left; now repeat split |]. now repeat split.
  - apply bind_Ok_inv in Hfirst as ([zero f0] & Hzero & Hfirst).
    apply of_option_Ok_inv in Hzero. cbv beta iota in Hfirst.
    inversion Hfirst; subst counts1 categories1 f1; clear Hfirst.
    exists zero, (<[ category := zero ]> counts), f0, one, f2, sum.
    split; [right; now repeat split |].
    unfold count_at in Hsum. rewrite lookup_insert_eq in Hsum. cbn in Hsum.
    now repeat split.
Qed.

Lemma tally_Revert_inv category counts categories f failure :
  tally category counts categories f = Revert failure -> failure = LibraryRevert.
Proof.
  unfold tally. intros Heq.
  apply bind_Revert_inv in Heq as [Heq | ([[counts1 categories1] f1] & _ & Heq)].
  { destruct (negb _) in Heq; [| discriminate Heq].
    apply bind_Revert_inv in Heq as [Heq | ([zero f0] & _ & Heq)];
      [now apply of_option_Revert_inv in Heq | discriminate Heq]. }
  cbv beta iota in Heq.
  apply bind_Revert_inv in Heq as [Heq | ([one f2] & _ & Heq)];
    [now apply of_option_Revert_inv in Heq |].
  cbv beta iota in Heq.
  apply bind_Revert_inv in Heq as [Heq | ([sum f3] & _ & Heq)];
    [now apply of_option_Revert_inv in Heq | discriminate Heq].
Qed.

(** A callback that goes through wrote exactly this. *)
Lemma analyzeBias_Ok_inv requestId cleartexts proof (s s' : State P) evs :
  analyzeBias requestId cleartexts proof s = Ok (s', evs) ->
  let id := request_at s requestId in
  exists analysis' fhe1 logged counts categories fhe2,
    id <> 0 /\
    isAnalyzed (analyses_at s id) = false /\
    isAnalyzed analysis' = true /\
    FHE_checkSignatures (fhe s) requestId cleartexts proof = Some (fhe1, logged) /\
    tally (biasScore analysis') (encryptedBiasCount s) (biasCategoryList s) fhe1
    = Ok (counts, categories, fhe2) /\
    evs = map FromLibrary logged ++ [AnalysisCompleted id] /\
    s' = {| articleCount := articleCount s;
            articles := articles s;
            analyses := <[ id := analysis' ]> (analyses s);
            encryptedBiasCount := counts;
            biasCategoryList := categories;
            requestToArticleId := requestToArticleId s;
            authorizedAnalysts := authorizedAnalysts s;
            fhe := fhe2 |}.
Proof.
  intros Heq id. unfold analyzeBias in Heq. fold id in Heq.
  apply bind_Ok_inv in Heq as (u1 & Hid & Heq).
  apply require_Ok_inv, negb_true_iff, Z.eqb_neq in Hid.
  apply bind_Ok_inv in Heq as (u2 & Hfresh & Heq).
  apply require_Ok_inv, negb_true_iff in Hfresh.
  apply bind_Ok_inv in Heq as ([fhe1 logged] & Hsig & Heq).
  apply of_option_Ok_inv in Hsig. cbv beta iota in Heq.
  apply bind_Ok_inv in Heq as (results & _ & Heq).
  apply bind_Ok_inv in Heq as (contentScore & _ & Heq).
  apply bind_Ok_inv in Heq as (sentiment & _ & Heq).
  apply bind_Ok_inv in Heq as (keywords & _ & Heq).
  apply bind_Ok_inv in Heq as (score & _ & Heq).
  apply bind_Ok_inv in Heq as (comparison & _ & Heq).
  cbn [biasScore] in Heq.
  apply bind_Ok_inv in Heq as ([[counts categories] fhe2] & Htally & Heq).
  cbv beta iota in Heq.
  inversion Heq; subst s' evs; clear Heq.
  exists {| biasScore := score; comparisonResult := comparison;
            mediaOutlet := identifyMediaOutlet keywords; isAnalyzed := true |},
         fhe1, logged, counts, categories, fhe2.
  cbn [biasScore isAnalyzed]. repeat split; assumption.
Qed.

(** Every way the callback can fail. *)
Lemma analyzeBias_Revert_inv requestId cleartexts proof (s : State P) f :
  analyzeBias requestId cleartexts proof s = Revert f ->
  f = InvalidRequest \/ f = AlreadyAnalyzed \/ f = LibraryRevert
  \/ f = DecodeFailure \/ f = MemoryOverflow
  \/ f = IndexOutOfBounds \/ f = ArithmeticOverflow.
Proof.
  intros Heq. unfold analyzeBias in Heq.
  apply bind_Revert_inv in Heq as [Heq | (? & _ & Heq)].
  { apply require_Revert_inv in Heq as [_ ->]. auto. }
  apply bind_Revert_inv in Heq as [Heq | (? & _ & Heq)].
  { apply require_Revert_inv in Heq as [_ ->]. auto. }
  apply bind_Revert_inv in Heq as [Heq | ([fhe1 logged] & _ & Heq)].
  { apply of_option_Revert_inv in Heq as [_ ->]. auto. }
  cbv beta iota in Heq.
  apply bind_Revert_inv in Heq as [Heq | (results & _ & Heq)].
  { apply of_decoded_Revert_inv in Heq as [[_ ->] | [_ ->]]; auto 10. }
  apply bind_Revert_inv in Heq as [Heq | (contentScore & _ & Heq)].
  { apply index_Revert_inv in Heq as ->. auto 10. }
  apply bind_Revert_inv in Heq as [Heq | (sentiment & _ & Heq)].
  { apply index_Revert_inv in Heq as ->. auto 10. }
  apply bind_Revert_inv in Heq as [Heq | (keywords & _ & Heq)].
  { apply index_Revert_inv in Heq as ->. auto 10. }
  apply bind_Revert_inv in Heq as [Heq | (score & _ & Heq)].
  { apply calculateBiasScore_Revert_inv in Heq as ->. auto 10. }
  apply bind_Revert_inv in Heq as [Heq | (comparison & _ & Heq)].
  { apply compareWithBaseline_Revert_inv in Heq as ->. auto 10. }
  apply bind_Revert_inv in Heq as [Heq | ([[counts categories] fhe2] & _ & Heq)].
  { apply tally_Revert_inv in Heq as ->. auto 10. }
  discriminate Heq.
Qed.

(** The second of the two guards: a set [isAnalyzed] flag on the
    request's article stops the callback before anything else runs. *)
Lemma analyzeBias_analyzed requestId cleartexts proof (s : State P) :
  request_at s requestId <> 0 ->
  isAnalyzed (analyses_at s (request_at s requestId)) = true ->
  analyzeBias requestId cleartexts proof s = Revert AlreadyAnalyzed.
Proof.
  intros Hid Hdone. unfold analyzeBias.
  apply Z.eqb_neq in Hid. rewrite Hid, Hdone. reflexivity.
Qed.

(** Past the two guards the callback can still fail, but only in the
    library, in the decoder, on an index or in the arithmetic. *)
Lemma analyzeBias_past_guards requestId cleartexts proof (s : State P) f :
  request_at s requestId <> 0 ->
  isAnalyzed (analyses_at s (request_at s requestId)) = false ->
  analyzeBias requestId cleartexts proof s = Revert f ->
  f = LibraryRevert \/ f = DecodeFailure \/ f = MemoryOverflow
  \/ f = IndexOutOfBounds \/ f = ArithmeticOverflow.
Proof.
  intros Hid Hfresh Heq. unfold analyzeBias in Heq.
  apply Z.eqb_neq in Hid.
  apply bind_Revert_inv in Heq as [Heq | (? & _ & Heq)].
  { apply require_Revert_inv in Heq as [Hguard _].
    rewrite Hid in Hguard. discriminate Hguard. }
  apply bind_Revert_inv in Heq as [Heq | (? & _ & Heq)].
  { apply require_Revert_inv in Heq as [Hguard _].
    rewrite Hfresh in Hguard. discriminate Hguard. }
  apply bind_Revert_inv in Heq as [Heq | ([fhe1 logged] & _ & Heq)].
  { apply of_option_Revert_inv in Heq as [_ ->]. auto. }
  cbv beta iota in Heq.
  apply bind_Revert_inv in Heq as [Heq | (results & _ & Heq)].
  { apply of_decoded_Revert_inv in Heq as [[_ ->] | [_ ->]]; auto 10. }
  apply bind_Revert_inv in Heq as [Heq | (contentScore & _ & Heq)].
  { apply index_Revert_inv in Heq as ->. auto 10. }
  apply bind_Revert_inv in Heq as [Heq | (sentiment & _ & Heq)].
  { apply index_Revert_inv in Heq as ->. auto 10. }
  apply bind_Revert_inv in Heq as [Heq | (keywords & _ & Heq)].
  { apply index_Revert_inv in Heq as ->. auto 10. }
  apply bind_Revert_inv in Heq as [Heq | (score & _ & Heq)].
  { apply calculateBiasScore_Revert_inv in Heq as ->. auto 10. }
  apply bind_Revert_inv in Heq as [Heq | (comparison & _ & Heq)].
  { apply compareWithBaseline_Revert_inv in Heq as ->. auto 10. }
  apply bind_Revert_inv in Heq as [Heq | ([[counts categories] fhe2] & _ & Heq)].
  { apply tally_Revert_inv in Heq as ->. auto 10. }
  discriminate Heq.
Qed.

Lemma analyzeBias_unknown_request requestId cleartexts proof (s : State P) :
  request_at s requestId = 0 ->
  analyzeBias requestId cleartexts proof s = Revert InvalidRequest.
Proof. intros Hid. unfold analyzeBias. rewrite Hid. reflexivity. Qed.

Lemma onlyAnalyst_stranger e (s : State P) :
  is_analyst s (msg_sender e) = false -> onlyAnalyst e s = Revert Unauthorized.
Proof. intros Hno. unfold onlyAnalyst. now rewrite Hno. Qed.

Lemma onlyAnalyst_analyst e (s : State P) :
  is_analyst s (msg_sender e) = true -> onlyAnalyst e s = Ok tt.
Proof. intros Hyes. unfold onlyAnalyst. now rewrite Hyes. Qed.

End Callback.

(** ** What each transaction may change *)

Section Frames.
Context {P : Platform}.

Lemma submitEncryptedArticle_Ok_inv e c1 c2 c3 (s s' : State P) evs :
  submitEncryptedArticle e c1 c2 c3 s = Ok (s', evs) ->
  let newId := articleCount s + 1 in
  0 <= newId <= max_uint256 /\
  is_analyst s (msg_sender e) = true /\
  evs = [ArticleSubmitted newId (block_timestamp e)] /\
  articleCount s' = newId /\
  articles s' = <[ newId := mkEncryptedArticle newId c1 c2 c3 (block_timestamp e) ]>
                  (articles s) /\
  analyses s' = <[ newId := zeroAnalysis ]> (analyses s) /\
  encryptedBiasCount s' = encryptedBiasCount s /\
  biasCategoryList s' = biasCategoryList s /\
  requestToArticleId s' = requestToArticleId s.
Proof.
  intros Heq newId. unfold submitEncryptedArticle in Heq.
  apply bind_Ok_inv in Heq as (u & Hauth & Heq).
  apply require_Ok_inv in Hauth.
  apply bind_Ok_inv in Heq as (n & Hn & Heq).
  apply checked_inv in Hn as [-> Hrange].
  inversion Heq; subst s' evs; clear Heq. cbn.
  repeat split; solve [assumption | reflexivity | lia].
Qed.

Lemma requestBiasAnalysis_Ok_inv e id (s s' : State P) evs :
  requestBiasAnalysis e id s = Ok (s', evs) ->
  exists reqId fhe',
    is_analyst s (msg_sender e) = true /\
    isAnalyzed (analyses_at s id) = false /\
    FHE_requestDecryption (fhe s) (article_ciphertexts (articles_at s id))
                          analyzeBias_selector = Some (reqId, fhe') /\
    evs = [AnalysisRequested id] /\
    s' = {| articleCount := articleCount s;
            articles := articles s;
            analyses := analyses s;
            encryptedBiasCount := encryptedBiasCount s;
            biasCategoryList := biasCategoryList s;
            requestToArticleId := <[ reqId := id ]> (requestToArticleId s);
            authorizedAnalysts := authorizedAnalysts s;
            fhe := fhe' |}.
Proof.
  intros Heq. unfold requestBiasAnalysis in Heq.
  apply bind_Ok_inv in Heq as (u1 & Hauth & Heq).
  apply require_Ok_inv in Hauth.
  apply bind_Ok_inv in Heq as (u2 & Hfresh & Heq).
  apply require_Ok_inv, negb_true_iff in Hfresh.
  apply bind_Ok_inv in Heq as ([reqId fhe'] & Hreq & Heq).
  apply of_option_Ok_inv in Hreq.
  inversion Heq; subst s' evs; clear Heq.
  exists reqId, fhe'. repeat split; assumption.
Qed.

Lemma authorizeAnalyst_frame e analyst (s s' : State P) evs :
  authorizeAnalyst e analyst s = Ok (s', evs) -> same_records s s' /\ evs = [].
Proof.
  unfold authorizeAnalyst. intros Heq.
  apply bind_Ok_inv in Heq as (u & _ & Heq).
  inversion Heq; subst. now repeat split.
Qed.

Lemma requestBiasAnalysis_frame e id (s s' : State P) evs :
  requestBiasAnalysis e id s = Ok (s', evs) ->
  same_records s s' /\ evs = [AnalysisRequested id].
Proof.
  intros Heq.
  apply requestBiasAnalysis_Ok_inv in Heq as (r & f & _ & _ & _ & -> & ->).
  now repeat split.
Qed.

Lemma requestBiasCountDecryption_frame e category (s s' : State P) evs :
  requestBiasCountDecryption e category s = Ok (s', evs) ->
  same_records s s' /\ evs = [].
Proof.
  unfold requestBiasCountDecryption. intros Heq.
  apply bind_Ok_inv in Heq as (u1 & _ & Heq).
  apply bind_Ok_inv in Heq as (u2 & _ & Heq).
  apply bind_Ok_inv in Heq as ([reqId fhe'] & _ & Heq).
  inversion Heq; subst. now repeat split.
Qed.

Lemma submitted_ids_library logged : submitted_ids (map FromLibrary logged) = [].
Proof. induction logged as [| ev logged IH]; [reflexivity | exact IH]. Qed.

Lemma decryptBiasCount_frame e requestId cleartexts proof (s s' : State P) evs :
  decryptBiasCount e requestId cleartexts proof s = Ok (s', evs) ->
  same_records s s' /\ exists logged, evs = map FromLibrary logged.
Proof.
  unfold decryptBiasCount. intros Heq.
  apply bind_Ok_inv in Heq as (u & _ & Heq).
  apply bind_Ok_inv in Heq as (category & _ & Heq).
  apply bind_Ok_inv in Heq as ([fhe' logged] & _ & Heq). cbv beta iota in Heq.
  apply bind_Ok_inv in Heq as (count & _ & Heq).
  inversion Heq; subst. split; [now repeat split | eauto].
Qed.

(** A successful transaction is a submission, a callback, or leaves the
    records alone. *)
Lemma exec_Ok_cases e c (s s' : State P) evs :
  exec e c s = Ok (s', evs) ->
  (exists c1 c2 c3, c = SubmitEncryptedArticle c1 c2 c3)
  \/ (exists r ct pf, c = AnalyzeBias r ct pf)
  \/ (same_records s s' /\ submitted_ids evs = []).
Proof.
  destruct c as [analyst | c1 c2 c3 | id | r ct pf | category | r ct pf];
    cbn [exec]; intros Heq.
  - apply authorizeAnalyst_frame in Heq as [Hsame ->]. auto.
  - left. eauto.
  - apply requestBiasAnalysis_frame in Heq as [Hsame ->]. auto.
  - right. left. eauto.
  - apply requestBiasCountDecryption_frame in Heq as [Hsame ->]. auto.
  - apply decryptBiasCount_frame in Heq as [Hsame [logged ->]].
    right. right. split; [assumption | apply submitted_ids_library].
Qed.

Lemma reachable_post e c (s : State P) :
  reachable s -> reachable (post s (exec e c s)).
Proof.
  intros Hs. destruct (exec e c s) as [[s' evs] | f] eqn:Heq; cbn [post].
  - eapply reachable_step; eassumption.
  - assumption.
Qed.

(** *** Article ids *)

(** One transaction announces no id and keeps the counter, or announces
    the next id and moves the counter onto it. *)
Lemma exec_ids e c (s : State P) :
  let r := exec e c s in
  (submitted_ids (emitted r) = [] /\ articleCount (post s r) = articleCount s)
  \/ (submitted_ids (emitted r) = [articleCount s + 1]
      /\ articleCount (post s r) = articleCount s + 1).
Proof.
  intros r. subst r.
  destruct (exec e c s) as [[s' evs] | f] eqn:Heq; cbn [emitted post];
    [| left; split; reflexivity].
  destruct (exec_Ok_cases _ _ _ _ _ Heq)
    as [(c1 & c2 & c3 & ->) | [(r & ct & pf & ->) | [Hsame Hids]]].
  - right. cbn [exec] in Heq.
    apply submitEncryptedArticle_Ok_inv in Heq
      as (_ & _ & -> & Hcount & _). now split.
  - left. cbn [exec] in Heq.
    apply analyzeBias_Ok_inv in Heq
      as (analysis' & fhe' & logged & tcounts & tcategories & tfhe
          & _ & _ & _ & _ & Htally & -> & ->).
    split; [| reflexivity].
    unfold submitted_ids. rewrite omap_app. cbn. rewrite app_nil_r.
    apply submitted_ids_library.
  - left. split; [assumption | apply Hsame].
Qed.

Lemma submitted_ids_app log1 log2 :
  submitted_ids (log1 ++ log2) = submitted_ids log1 ++ submitted_ids log2.
Proof. unfold submitted_ids. apply omap_app. Qed.

(** The ids a history announces continue the counter without a gap. *)
Lemma run_ids txs : forall s : State P,
  0 <= articleCount s ->
  articleCount s <= articleCount (run txs s).1 /\
  submitted_ids (run txs s).2
  = seqZ (articleCount s + 1) (articleCount (run txs s).1 - articleCount s).
Proof.
  induction txs as [| [e c] txs IH]; intros s Hcount; cbn [run].
  - cbn. split; [lia |]. rewrite seqZ_nil by lia. reflexivity.
  - destruct (run txs (post s (exec e c s))) as [s' log] eqn:Hrun. cbn [fst snd].
    pose proof (exec_ids e c s) as Hstep. cbv zeta in Hstep.
    destruct Hstep as [[Hids Hsame] | [Hids Hnext]].
    + destruct (IH (post s (exec e c s))) as [Hle Hlog]; [lia |].
      rewrite Hrun in Hle, Hlog. cbn [fst snd] in Hle, Hlog.
      rewrite Hsame in Hle, Hlog.
      rewrite submitted_ids_app, Hids, Hlog. now split.
    + destruct (IH (post s (exec e c s))) as [Hle Hlog]; [lia |].
      rewrite Hrun in Hle, Hlog. cbn [fst snd] in Hle, Hlog.
      rewrite Hnext in Hle, Hlog.
      rewrite submitted_ids_app, Hids, Hlog. split; [lia |].
      rewrite (seqZ_cons (articleCount s + 1)) by lia. cbn [app].
      f_equal. f_equal; lia.
Qed.

End Frames.

(** ** Invariants of the reachable states *)

Section Invariants.
Context {P : Platform}.

Lemma analyses_at_insert_eq (s : State P) id ba m :
  analyses s = <[ id := ba ]> m -> analyses_at s id = ba.
Proof. intros Heq. unfold analyses_at. now rewrite Heq, lookup_insert_eq. Qed.

Lemma analyses_at_insert_ne (s s0 : State P) id id' ba :
  analyses s = <[ id := ba ]> (analyses s0) -> id <> id' ->
  analyses_at s id' = analyses_at s0 id'.
Proof.
  intros Heq Hne. unfold analyses_at. now rewrite Heq, lookup_insert_ne.
Qed.

Lemma ids_inv_step e c (s s' : State P) evs :
  ids_inv s -> exec e c s = Ok (s', evs) -> ids_inv s'.
Proof.
  intros (Hcount & Hzero & Hdom) Heq.
  destruct (exec_Ok_cases _ _ _ _ _ Heq)
    as [(c1 & c2 & c3 & ->) | [(r & ct & pf & ->) | [Hsame _]]].
  - cbn [exec] in Heq.
    apply submitEncryptedArticle_Ok_inv in Heq
      as (Hrange & _ & _ & Hcount' & Harticles & Hanalyses & _).
    unfold ids_inv, assigned. rewrite Hcount'. repeat split.
    + lia.
    + rewrite (analyses_at_insert_ne _ s _ 0 _ Hanalyses) by lia. assumption.
    + intros id Hout. rewrite Harticles, lookup_insert_ne by lia.
      apply Hdom. unfold assigned. lia.
  - cbn [exec] in Heq.
    apply analyzeBias_Ok_inv in Heq
      as (analysis' & fhe' & logged & tcounts & tcategories & tfhe
        & Hid & _ & _ & _ & Htally & _ & ->).
    unfold ids_inv, assigned. cbn [articleCount articles]. repeat split.
    + assumption.
    + unfold analyses_at. cbn [analyses].
      rewrite lookup_insert_ne by assumption. apply Hzero.
    + apply Hdom.
  - destruct Hsame as (Hc & Ha & Hb & _).
    unfold ids_inv, assigned, analyses_at. rewrite Hc, Ha, Hb.
    repeat split; assumption.
Qed.

Lemma ids_inv_reachable (s : State P) : reachable s -> ids_inv s.
Proof.
  induction 1 as [e fhe0 | s e c s' evs _ IH Hstep].
  - unfold ids_inv, assigned, analyses_at. cbn.
    split; [lia | split; [reflexivity | intros id _; apply lookup_empty]].
  - eapply ids_inv_step; eassumption.
Qed.

(** *** The category ledger *)

Context {L : PlatformLaws P}.

Lemma count_at_insert_eq counts category h :
  count_at (<[ category := h ]> counts) category = h.
Proof. unfold count_at. now rewrite lookup_insert_eq. Qed.

Lemma count_at_insert_ne counts category c h :
  category <> c -> count_at (<[ category := h ]> counts) c = count_at counts c.
Proof. intros Hne. unfold count_at. now rewrite lookup_insert_ne. Qed.


Lemma tally_ledger category counts categories f counts' categories' f' :
  ledger_inv counts categories ->
  tally category counts categories f = Ok (counts', categories', f') ->
  ledger_inv counts' categories'.
Proof.
  intros (Hnodup & Hdom & Hinit) Htally.
  apply tally_Ok_inv in Htally
    as (base & counts1 & f1 & one & f2 & sum & Hfirst & _ & Hsum & ->).
  apply add_initialized in Hsum.
  destruct Hfirst as [(Hc & _ & -> & -> & _) | (Hc & _ & -> & ->)].
  - assert (Hin : category ∈ categories) by now apply Hinit.
    split; [assumption |]. split; intros c.
    + destruct (decide (category = c)) as [<- | Hne].
      * rewrite lookup_insert_eq. split; [eauto | intros _; assumption].
      * rewrite lookup_insert_ne by assumption. apply Hdom.
    + destruct (decide (category = c)) as [<- | Hne].
      * rewrite count_at_insert_eq, Hsum. tauto.
      * rewrite count_at_insert_ne by assumption. apply Hinit.
  - assert (Hout : category ∉ categories).
    { intros Hin. apply Hinit in Hin. congruence. }
    split; [| split; intros c].
    + apply NoDup_app. split; [assumption |]. split.
      * intros x Hx Hx'. apply list_elem_of_singleton in Hx'. now subst x.
      * apply NoDup_singleton.
    + rewrite elem_of_app, list_elem_of_singleton.
      destruct (decide (category = c)) as [<- | Hne].
      * rewrite lookup_insert_eq. split; [eauto | intros _; now right].
      * rewrite !lookup_insert_ne by assumption. rewrite <- Hdom.
        split; [intros [Hin | ->]; [assumption | contradiction] | now left].
    + rewrite elem_of_app, list_elem_of_singleton.
      destruct (decide (category = c)) as [<- | Hne].
      * rewrite count_at_insert_eq, Hsum.
        split; [reflexivity | intros _; now right].
      * rewrite !count_at_insert_ne by assumption. rewrite <- Hinit.
        split; [intros [Hin | ->]; [assumption | contradiction] | now left].
Qed.

Lemma ledger_inv_step e c (s s' : State P) evs :
  ledger_inv (encryptedBiasCount s) (biasCategoryList s) ->
  exec e c s = Ok (s', evs) ->
  ledger_inv (encryptedBiasCount s') (biasCategoryList s').
Proof.
  intros Hinv Heq.
  destruct (exec_Ok_cases _ _ _ _ _ Heq)
    as [(c1 & c2 & c3 & ->) | [(r & ct & pf & ->) | [Hsame _]]].
  - cbn [exec] in Heq.
    apply submitEncryptedArticle_Ok_inv in Heq
      as (_ & _ & _ & _ & _ & _ & -> & -> & _). assumption.
  - cbn [exec] in Heq.
    apply analyzeBias_Ok_inv in Heq
      as (analysis' & fhe' & logged & tcounts & tcategories & tfhe
        & _ & _ & _ & _ & Htally & _ & ->).
    cbn [encryptedBiasCount biasCategoryList].
    eapply tally_ledger; eassumption.
  - destruct Hsame as (_ & _ & _ & -> & ->). assumption.
Qed.

Lemma ledger_inv_reachable (s : State P) :
  reachable s -> ledger_inv (encryptedBiasCount s) (biasCategoryList s).
Proof.
  induction 1 as [e fhe0 | s e c s' evs _ IH Hstep].
  - cbn. split; [apply NoDup_nil_2 |]. split; intros c.
    + rewrite lookup_empty. split; [intros Hin | intros [x Hx]].
      * now apply not_elem_of_nil in Hin.
      * discriminate Hx.
    + unfold count_at. rewrite lookup_empty. cbn. rewrite zero_uninitialized.
      split; [intros Hin | discriminate].
      now apply not_elem_of_nil in Hin.
  - eapply ledger_inv_step; eassumption.
Qed.


End Invariants.

(** ** The reference platform obeys the laws, and its scenario is reachable *)

#[export] Instance reference_laws : PlatformLaws Reference.platform.
Proof.
  split; cbn.
  - reflexivity.
  - intros f v h f' Heq. inversion Heq; subst.
    apply negb_true_iff, Z.eqb_neq. lia.
  - intros f a b h f' Heq. inversion Heq; subst.
    apply negb_true_iff, Z.eqb_neq. lia.
Qed.

Lemma reachable_deployed : reachable Reference.deployed.
Proof. apply reachable_constructor. Qed.

Lemma reachable_submitted : reachable Reference.submitted.
Proof. apply reachable_post, reachable_deployed. Qed.

Lemma reachable_requested : reachable Reference.requested.
Proof. apply reachable_post, reachable_submitted. Qed.

Lemma reachable_analyzed : reachable Reference.analyzed.
Proof. apply reachable_post, reachable_requested. Qed.

(** The end-to-end scenario of the specification, run on the reference
    platform. *)
Example scenario_end_to_end :
  articleCount Reference.submitted = 1
  /\ request_at Reference.requested 0 = 1
  /\ getBiasAnalysis 1 Reference.analyzed
     = ("HighlyBiased", "SignificantDeviation", "OutletC", true)
  /\ biasCategoryList Reference.analyzed = ["HighlyBiased"]
  /\ @FHE_isInitialized Reference.platform
       (getEncryptedBiasCount "HighlyBiased" Reference.analyzed) = true.
Proof. vm_compute. repeat split; reflexivity. Qed.

(** * The claims *)

Section Claims.
Context {P : Platform}.

(** C9: the article callback checks no caller: its outcome is the same for
    every caller and is never the Unauthorized failure; the counter
    callback fails with Unauthorized for every caller outside the analyst
    set, whatever its other arguments and the state are. *)
Theorem callback_authorization (e : Env) (requestId : Z)
    (cleartexts proof : bytes) (s : State P) :
  (forall e', exec e' (AnalyzeBias requestId cleartexts proof) s
              = exec e (AnalyzeBias requestId cleartexts proof) s) /\
  exec e (AnalyzeBias requestId cleartexts proof) s <> Revert Unauthorized /\
  (is_analyst s (msg_sender e) = false ->
   exec e (DecryptBiasCount requestId cleartexts proof) s = Revert Unauthorized).
Proof.
  split; [reflexivity |]. split.
  - cbn [exec]. intros Heq.
    apply analyzeBias_Revert_inv in Heq
      as [Hf | [Hf | [Hf | [Hf | [Hf | [Hf | Hf]]]]]]; discriminate Hf.
  - intros Hno. cbn [exec]. unfold decryptBiasCount.
    now rewrite onlyAnalyst_stranger.
Qed.

(** C2: in every reachable state, for every article id whose [isAnalyzed]
    flag is set, a further callback for a request of that article fails
    with AlreadyAnalyzed, and the stored BiasAnalysis, like the rest of
    the storage, is what it was. *)
Theorem analyzeBias_twice_rejected (s : State P) (e : Env) (id requestId : Z)
    (cleartexts proof : bytes) :
  reachable s ->
  request_at s requestId = id ->
  isAnalyzed (analyses_at s id) = true ->
  let r := exec e (AnalyzeBias requestId cleartexts proof) s in
  r = Revert AlreadyAnalyzed /\
  post s r = s /\
  analyses_at (post s r) id = analyses_at s id /\
  getBiasAnalysis id (post s r) = getBiasAnalysis id s.
Proof.
  intros Hreach Hreq Hdone r.
  assert (Hid : id <> 0).
  { intros ->. apply ids_inv_reachable in Hreach as (_ & Hzero & _). congruence. }
  assert (Hr : r = Revert AlreadyAnalyzed).
  { subst r. cbn [exec]. apply analyzeBias_analyzed; rewrite Hreq; assumption. }
  rewrite Hr. cbn [post]. repeat split; reflexivity.
Qed.

(** C3, as the code has it: no operation checks that an article id was
    ever assigned.  For an id no submission has assigned, [articles] reads
    as the zero record; [requestBiasAnalysis] from an analyst, with the
    id's [isAnalyzed] flag clear, sends the zero handles for decryption
    and, once the library accepts the request, succeeds and maps the new
    request id to that id; it can fail only with Unauthorized,
    AlreadyAnalyzed or a revert of the library; [getBiasAnalysis] returns
    whatever [analyses] holds at the id, the empty record with
    [isAnalyzed = false] where nothing was written. *)
Theorem unknown_article_not_rejected (s : State P) (e : Env) (id : Z) :
  reachable s ->
  ~ assigned s id ->
  articles_at s id = zeroArticle /\
  (is_analyst s (msg_sender e) = true ->
   isAnalyzed (analyses_at s id) = false ->
   forall reqId fhe',
     FHE_requestDecryption (fhe s) (article_ciphertexts zeroArticle)
                           analyzeBias_selector = Some (reqId, fhe') ->
     exists s', exec e (RequestBiasAnalysis id) s = Ok (s', [AnalysisRequested id])
                /\ request_at s' reqId = id) /\
  (forall f, exec e (RequestBiasAnalysis id) s = Revert f ->
             f = Unauthorized \/ f = AlreadyAnalyzed \/ f = LibraryRevert) /\
  getBiasAnalysis id s
  = (biasScore (analyses_at s id), comparisonResult (analyses_at s id),
     mediaOutlet (analyses_at s id), isAnalyzed (analyses_at s id)) /\
  (analyses s !! id = None ->
   getBiasAnalysis id s = (EmptyString, EmptyString, EmptyString, false)).
Proof.
  intros Hreach Hunknown.
  assert (Hzero : articles_at s id = zeroArticle).
  { apply ids_inv_reachable in Hreach as (_ & _ & Hdom).
    unfold articles_at. now rewrite (Hdom id Hunknown). }
  split; [assumption |]. split; [| split; [| split]].
  - intros Hauth Hfresh reqId fhe' Hlib.
    cbn [exec]. unfold requestBiasAnalysis.
    rewrite (onlyAnalyst_analyst _ _ Hauth), Hfresh, Hzero, Hlib. cbn.
    eexists. split; [reflexivity |].
    unfold request_at. cbn. now rewrite lookup_insert_eq.
  - intros f Heq. cbn [exec] in Heq. unfold requestBiasAnalysis in Heq.
    apply bind_Revert_inv in Heq as [Heq | (? & _ & Heq)].
    { apply require_Revert_inv in Heq as [_ ->]. auto. }
    apply bind_Revert_inv in Heq as [Heq | (? & _ & Heq)].
    { apply require_Revert_inv in Heq as [_ ->]. auto. }
    apply bind_Revert_inv in Heq as [Heq | ([reqId fhe'] & _ & Heq)].
    { apply of_option_Revert_inv in Heq as [_ ->]. auto. }
    discriminate Heq.
  - reflexivity.
  - intros Hnone. unfold getBiasAnalysis, analyses_at. now rewrite Hnone.
Qed.

(** C4, as the code has it: the contract keeps no record of outstanding
    requests.  [requestBiasAnalysis] from an analyst is rejected, with
    AlreadyAnalyzed, only when the article's [isAnalyzed] flag is set;
    while it is clear, a second call made before any callback succeeds
    like the first, and both request ids then name the same article. *)
Theorem requestBiasAnalysis_repeatable (s : State P) (e : Env) (id : Z) :
  is_analyst s (msg_sender e) = true ->
  (isAnalyzed (analyses_at s id) = true ->
   exec e (RequestBiasAnalysis id) s = Revert AlreadyAnalyzed) /\
  (isAnalyzed (analyses_at s id) = false ->
   forall r1 fhe1 r2 fhe2,
     FHE_requestDecryption (fhe s) (article_ciphertexts (articles_at s id))
                           analyzeBias_selector = Some (r1, fhe1) ->
     FHE_requestDecryption fhe1 (article_ciphertexts (articles_at s id))
                           analyzeBias_selector = Some (r2, fhe2) ->
     exists s1 s2,
       exec e (RequestBiasAnalysis id) s = Ok (s1, [AnalysisRequested id]) /\
       exec e (RequestBiasAnalysis id) s1 = Ok (s2, [AnalysisRequested id]) /\
       requestToArticleId s2
       = <[ r2 := id ]> (<[ r1 := id ]> (requestToArticleId s)) /\
       request_at s2 r2 = id /\
       (r1 <> r2 -> request_at s2 r1 = id) /\
       isAnalyzed (analyses_at s2 id) = false).
Proof.
  intros Hauth. split.
  - intros Hdone. cbn [exec]. unfold requestBiasAnalysis.
    now rewrite (onlyAnalyst_analyst _ _ Hauth), Hdone.
  - intros Hfresh r1 fhe1 r2 fhe2 Hlib1 Hlib2.
    cbn [exec]. unfold requestBiasAnalysis at 1.
    rewrite (onlyAnalyst_analyst _ _ Hauth), Hfresh, Hlib1. cbn.
    eexists. eexists. split; [reflexivity |].
    unfold requestBiasAnalysis, onlyAnalyst, is_analyst, analyses_at, articles_at.
    cbn [authorizedAnalysts analyses articles fhe].
    fold (is_analyst s (msg_sender e)). fold (analyses_at s id).
    fold (articles_at s id).
    rewrite Hauth, Hfresh, Hlib2. cbn.
    split; [reflexivity |]. split; [reflexivity |].
    unfold request_at, analyses_at. cbn. split; [| split].
    + now rewrite lookup_insert_eq.
    + intros Hne. rewrite lookup_insert_ne by congruence.
      now rewrite lookup_insert_eq.
    + exact Hfresh.
Qed.


End Claims.

(** ** The claims on the reference scenario *)

Lemma succeeded_exec {P : Platform} e c (s : State P) :
  succeeded (exec e c s) = true ->
  exec e c s = Ok (post s (exec e c s), emitted (exec e c s)).
Proof. destruct (exec e c s) as [[s' evs] | f]; [reflexivity | discriminate]. Qed.

Lemma failure_of_Revert {A} (r : result A) f : failure_of r = Some f -> r = Revert f.
Proof. destruct r; cbn; congruence. Qed.

(** The four transactions of the scenario, and the second request, go
    through. *)
Lemma submitted_step :
  exec Reference.deployer (SubmitEncryptedArticle 11 12 13) Reference.deployed
  = Ok (Reference.submitted, [ArticleSubmitted 1 1700000000]).
Proof.
  rewrite succeeded_exec by (vm_compute; reflexivity).
  apply f_equal, f_equal2; [reflexivity | vm_compute; reflexivity].
Qed.

Lemma requested_step :
  exec Reference.deployer (RequestBiasAnalysis 1) Reference.submitted
  = Ok (Reference.requested, [AnalysisRequested 1]).
Proof.
  rewrite succeeded_exec by (vm_compute; reflexivity).
  apply f_equal, f_equal2; [reflexivity | vm_compute; reflexivity].
Qed.

Lemma analyzed_step :
  exec Reference.stranger (AnalyzeBias 0 Reference.payload []) Reference.requested
  = Ok (Reference.analyzed,
        [FromLibrary (DecryptionFulfilled 0); AnalysisCompleted 1]).
Proof.
  rewrite succeeded_exec by (vm_compute; reflexivity).
  apply f_equal, f_equal2; [reflexivity | vm_compute; reflexivity].
Qed.

Lemma requested_twice_step :
  exec Reference.deployer (RequestBiasAnalysis 1) Reference.requested
  = Ok (Reference.requested_twice, [AnalysisRequested 1]).
Proof.
  rewrite succeeded_exec by (vm_compute; reflexivity).
  apply f_equal, f_equal2; [reflexivity | vm_compute; reflexivity].
Qed.

Lemma callback_authorization_witness :
  is_analyst Reference.analyzed (msg_sender Reference.stranger) = false
  /\ exec Reference.stranger (DecryptBiasCount 0 Reference.payload [])
          Reference.analyzed = Revert Unauthorized.
Proof.
  assert (Hno : is_analyst Reference.analyzed (msg_sender Reference.stranger) = false)
    by (vm_compute; reflexivity).
  split; [exact Hno |].
  apply (callback_authorization Reference.stranger 0 Reference.payload []
           Reference.analyzed).
  exact Hno.
Defined.

Lemma analyzeBias_twice_rejected_witness :
  exec Reference.stranger (AnalyzeBias 0 Reference.payload []) Reference.analyzed
  = Revert AlreadyAnalyzed.
Proof.
  apply (analyzeBias_twice_rejected Reference.analyzed Reference.stranger 1 0
           Reference.payload []).
  - exact reachable_analyzed.
  - vm_compute. reflexivity.
  - vm_compute. reflexivity.
Defined.

Lemma unknown_article_not_rejected_witness :
  articles_at Reference.deployed 7 = zeroArticle
  /\ (exists s', exec Reference.deployer (RequestBiasAnalysis 7) Reference.deployed
                 = Ok (s', [AnalysisRequested 7])
                 /\ request_at s' 0 = 7)
  /\ getBiasAnalysis 7 Reference.deployed
     = (EmptyString, EmptyString, EmptyString, false).
Proof.
  assert (Hunknown : ~ assigned Reference.deployed 7).
  { unfold assigned. vm_compute. intros [_ Hle]. apply Hle. reflexivity. }
  pose proof (unknown_article_not_rejected Reference.deployed Reference.deployer 7
                reachable_deployed Hunknown)
    as (Hzero & Hrequest & _ & _ & Hget).
  split; [exact Hzero |]. split.
  - apply (Hrequest eq_refl eq_refl 0 1). reflexivity.
  - apply Hget. reflexivity.
Defined.

(** C3 as stated fails: with no article submitted, id 7 is unknown, yet the
    deployer's [requestBiasAnalysis(7)] succeeds and registers request 0 for
    it, and [getBiasAnalysis(7)] returns the empty record. *)
Lemma unknown_article_counterexample :
  articleCount Reference.deployed = 0
  /\ ~ assigned Reference.deployed 7
  /\ succeeded (exec Reference.deployer (RequestBiasAnalysis 7) Reference.deployed)
     = true
  /\ emitted (exec Reference.deployer (RequestBiasAnalysis 7) Reference.deployed)
     = [AnalysisRequested 7]
  /\ request_at (post Reference.deployed
                   (exec Reference.deployer (RequestBiasAnalysis 7) Reference.deployed))
                0 = 7
  /\ (forall f, exec Reference.deployer (RequestBiasAnalysis 7) Reference.deployed
                <> Revert f)
  /\ getBiasAnalysis 7 Reference.deployed
     = (EmptyString, EmptyString, EmptyString, false).
Proof.
  split; [reflexivity |]. split.
  { unfold assigned. vm_compute. intros [_ Hle]. apply Hle. reflexivity. }
  assert (Hok : succeeded (exec Reference.deployer (RequestBiasAnalysis 7)
                             Reference.deployed) = true)
    by (vm_compute; reflexivity).
  split; [exact Hok |].
  split; [vm_compute; reflexivity |].
  split; [vm_compute; reflexivity |].
  split; [| vm_compute; reflexivity].
  intros f. rewrite (succeeded_exec _ _ _ Hok). discriminate.
Qed.

Lemma requestBiasAnalysis_repeatable_witness :
  exists s1 s2,
    exec Reference.deployer (RequestBiasAnalysis 1) Reference.submitted
    = Ok (s1, [AnalysisRequested 1])
    /\ exec Reference.deployer (RequestBiasAnalysis 1) s1
       = Ok (s2, [AnalysisRequested 1])
    /\ request_at s2 1 = 1
    /\ request_at s2 0 = 1.
Proof.
  assert (Hauth : is_analyst Reference.submitted (msg_sender Reference.deployer) = true)
    by (vm_compute; reflexivity).
  assert (Hfresh : isAnalyzed (analyses_at Reference.submitted 1) = false)
    by (vm_compute; reflexivity).
  destruct (proj2 (requestBiasAnalysis_repeatable Reference.submitted
                     Reference.deployer 1 Hauth) Hfresh 0 1 1 2 eq_refl eq_refl)
    as (s1 & s2 & H1 & H2 & _ & Hr2 & Hr1 & _).
  exists s1, s2. repeat split; try assumption.
  apply Hr1. discriminate.
Defined.

(** C4 as stated fails: article 1 has request 0 outstanding and no callback
    has arrived; a second [requestBiasAnalysis(1)] succeeds and registers
    request 1 for the same article, so that two requests are pending. *)
Lemma second_request_counterexample :
  request_at Reference.requested 0 = 1
  /\ isAnalyzed (analyses_at Reference.requested 1) = false
  /\ exec Reference.deployer (RequestBiasAnalysis 1) Reference.requested
     = Ok (Reference.requested_twice, [AnalysisRequested 1])
  /\ request_at Reference.requested_twice 0 = 1
  /\ request_at Reference.requested_twice 1 = 1
  /\ (forall f, exec Reference.deployer (RequestBiasAnalysis 1) Reference.requested
                <> Revert f).
Proof.
  split; [vm_compute; reflexivity |].
  split; [vm_compute; reflexivity |].
  split; [exact requested_twice_step |].
  split; [vm_compute; reflexivity |].
  split; [vm_compute; reflexivity |].
  intros f. rewrite requested_twice_step. discriminate.
Qed.


(** * Further properties of the contract *)

(** ** The classifiers *)

Lemma compareWithBaseline_spec contentScore sentiment :
  is_uint32 contentScore -> is_uint32 sentiment ->
  compareWithBaseline contentScore sentiment
  = Ok (classifyDeviation contentScore sentiment).
Proof.
  intros Hc Hs. unfold compareWithBaseline, classifyDeviation.
  rewrite (abs_diff_50_ok _ Hc). simpl.
  rewrite (abs_diff_50_ok _ Hs). simpl.
  rewrite !orb_ltb_max.
  repeat (destruct (_ <? _); try reflexivity).
Qed.

Lemma calculateBiasScore_label contentScore sentiment label :
  calculateBiasScore contentScore sentiment = Ok label -> label ∈ bias_tiers.
Proof.
  unfold calculateBiasScore, bias_tiers. intros Heq.
  apply bind_Ok_inv in Heq as (a & _ & Heq).
  apply bind_Ok_inv in Heq as (b & _ & Heq).
  apply bind_Ok_inv in Heq as (sum & _ & Heq).
  repeat (destruct (_ <? _) in Heq);
    inversion Heq; subst label; set_solver.
Qed.

Lemma compareWithBaseline_label contentScore sentiment label :
  compareWithBaseline contentScore sentiment = Ok label ->
  label ∈ deviation_classes.
Proof.
  unfold compareWithBaseline, deviation_classes. intros Heq.
  apply bind_Ok_inv in Heq as (a & _ & Heq).
  apply bind_Ok_inv in Heq as (b & _ & Heq).
  repeat (destruct (_ || _) in Heq);
    inversion Heq; subst label; set_solver.
Qed.

Lemma identifyMediaOutlet_label keywords : identifyMediaOutlet keywords ∈ outlets.
Proof.
  unfold identifyMediaOutlet, outlets.
  repeat (destruct (_ =? _)); set_solver.
Qed.

(** X1: for every [uint32] keyword signature, [identifyMediaOutlet] returns
    the entry of OutletA..OutletE at position [keywords mod 5]; adding 5 to
    the signature does not change the outlet. *)
Theorem identifyMediaOutlet_by_residue keywords :
  is_uint32 keywords ->
  outlets !! Z.to_nat (keywords mod 5) = Some (identifyMediaOutlet keywords) /\
  identifyMediaOutlet (keywords + 5) = identifyMediaOutlet keywords.
Proof.
  intros [Hlo _]. split.
  - unfold identifyMediaOutlet.
    pose proof (Z.mod_pos_bound keywords 5 ltac:(lia)) as Hm.
    assert (Hcases : keywords mod 5 = 0 \/ keywords mod 5 = 1 \/ keywords mod 5 = 2
                     \/ keywords mod 5 = 3 \/ keywords mod 5 = 4) by lia.
    destruct Hcases as [-> | [-> | [-> | [-> | ->]]]]; reflexivity.
  - unfold identifyMediaOutlet.
    replace ((keywords + 5) mod 5) with (keywords mod 5); [reflexivity |].
    replace (keywords + 5) with (keywords + 1 * 5) by lia.
    now rewrite Z.mod_add by lia.
Qed.

Lemma identifyMediaOutlet_by_residue_witness :
  outlets !! Z.to_nat (7 mod 5) = Some (identifyMediaOutlet 7)
  /\ identifyMediaOutlet (7 + 5) = identifyMediaOutlet 7.
Proof.
  apply (identifyMediaOutlet_by_residue 7). by_evaluation.
Defined.

(** X2: the score is a weighted mean.  When both [uint32] inputs are at most
    858993459 (a fifth of [2^32 - 1]) [calculateBiasScore] returns a label,
    and the score lies between the smaller and the larger input; so two
    inputs above 80 give "HighlyBiased" and two inputs of at most 40 give
    "Neutral". *)
Theorem calculateBiasScore_weighted_mean contentScore sentiment :
  is_uint32 contentScore -> is_uint32 sentiment ->
  contentScore <= 858993459 -> sentiment <= 858993459 ->
  let score := (contentScore * 2 + sentiment * 3) / 5 in
  calculateBiasScore contentScore sentiment
    = Ok (classifyBiasTier contentScore sentiment) /\
  Z.min contentScore sentiment <= score <= Z.max contentScore sentiment /\
  (80 < contentScore -> 80 < sentiment ->
   calculateBiasScore contentScore sentiment = Ok "HighlyBiased") /\
  (contentScore <= 40 -> sentiment <= 40 ->
   calculateBiasScore contentScore sentiment = Ok "Neutral").
Proof.
  intros Hc Hs Hcb Hsb score.
  assert (Hfit : contentScore * 2 + sentiment * 3 <= max_uint32)
    by (rewrite max_uint32_val; lia).
  assert (Hmean : Z.min contentScore sentiment <= score
                  <= Z.max contentScore sentiment).
  { subst score. split.
    - apply Z.div_le_lower_bound; lia.
    - apply Z.div_le_upper_bound; lia. }
  rewrite (calculateBiasScore_fits _ _ Hc Hs Hfit).
  destruct (classifyBiasTier_cases contentScore sentiment) as (H1 & _ & _ & H4).
  fold score in H1, H4.
  split; [reflexivity |]. split; [assumption |]. split.
  - intros Hc80 Hs80. rewrite H1; [reflexivity | lia].
  - intros Hc40 Hs40. rewrite H4; [reflexivity | lia].
Qed.

Lemma calculateBiasScore_weighted_mean_witness :
  calculateBiasScore 95 81 = Ok "HighlyBiased".
Proof.
  refine (proj1 (proj2 (proj2
            (calculateBiasScore_weighted_mean 95 81 _ _ _ _))) _ _);
    by_evaluation.
Defined.

(** X3: [compareWithBaseline] treats its two [uint32] arguments alike and
    looks only at their distance from 50: swapping the arguments, or
    mirroring one of them about the baseline, gives the same label. *)
Theorem compareWithBaseline_symmetric contentScore sentiment :
  is_uint32 contentScore -> is_uint32 sentiment ->
  compareWithBaseline contentScore sentiment
    = compareWithBaseline sentiment contentScore /\
  (contentScore <= 100 ->
   compareWithBaseline (100 - contentScore) sentiment
   = compareWithBaseline contentScore sentiment).
Proof.
  intros Hc Hs. split.
  - rewrite !compareWithBaseline_spec by assumption.
    unfold classifyDeviation. cbv zeta. now rewrite Z.max_comm.
  - intros Hle.
    assert (Hm : is_uint32 (100 - contentScore)).
    { unfold is_uint32 in *. rewrite max_uint32_val in *. lia. }
    rewrite !compareWithBaseline_spec by assumption.
    unfold classifyDeviation. cbv zeta.
    replace (Z.abs (100 - contentScore - 50)) with (Z.abs (contentScore - 50)) by lia.
    reflexivity.
Qed.

Lemma compareWithBaseline_symmetric_witness :
  compareWithBaseline 20 50 = compareWithBaseline 50 20
  /\ compareWithBaseline (100 - 20) 50 = compareWithBaseline 20 50.
Proof.
  assert (H20 : is_uint32 20) by by_evaluation.
  assert (H50 : is_uint32 50) by by_evaluation.
  destruct (compareWithBaseline_symmetric 20 50 H20 H50) as [Hswap Hmirror].
  split; [exact Hswap | apply Hmirror; by_evaluation].
Defined.

(** ** Every transaction, inverted in full *)

(** Invert a successful run of a sequence of binds down to its last
    statement. *)
Ltac invert_Ok H :=
  repeat first
    [ apply bind_Ok_inv in H; destruct H as (? & ? & H)
    | match type of H with
      | context [let (_, _) := ?x in _] => destruct x
      end ];
  inversion H; subst; clear H.

Section Transactions.
Context {P : Platform}.

Lemma authorizeAnalyst_Ok_inv e analyst (s s' : State P) evs :
  authorizeAnalyst e analyst s = Ok (s', evs) ->
  is_analyst s (msg_sender e) = true /\
  evs = [] /\
  s' = {| articleCount := articleCount s;
          articles := articles s;
          analyses := analyses s;
          encryptedBiasCount := encryptedBiasCount s;
          biasCategoryList := biasCategoryList s;
          requestToArticleId := requestToArticleId s;
          authorizedAnalysts := <[ analyst := true ]> (authorizedAnalysts s);
          fhe := fhe s |}.
Proof.
  unfold authorizeAnalyst, onlyAnalyst. intros Heq. invert_Ok Heq.
  match goal with H : require _ _ = Ok _ |- _ => apply require_Ok_inv in H end.
  now repeat split.
Qed.

Lemma submitEncryptedArticle_Ok_full e c1 c2 c3 (s s' : State P) evs :
  submitEncryptedArticle e c1 c2 c3 s = Ok (s', evs) ->
  let newId := articleCount s + 1 in
  s' = {| articleCount := newId;
          articles :=
            <[ newId := mkEncryptedArticle newId c1 c2 c3 (block_timestamp e) ]>
              (articles s);
          analyses := <[ newId := zeroAnalysis ]> (analyses s);
          encryptedBiasCount := encryptedBiasCount s;
          biasCategoryList := biasCategoryList s;
          requestToArticleId := requestToArticleId s;
          authorizedAnalysts := authorizedAnalysts s;
          fhe := fhe s |}.
Proof.
  intros Heq newId. unfold submitEncryptedArticle, add256 in Heq. invert_Ok Heq.
  match goal with H : checked _ _ = Ok _ |- _ => apply checked_inv in H as [-> _] end.
  reflexivity.
Qed.

Lemma requestBiasCountDecryption_Ok_inv e category (s s' : State P) evs :
  requestBiasCountDecryption e category s = Ok (s', evs) ->
  exists reqId fhe',
    is_analyst s (msg_sender e) = true /\
    FHE_isInitialized (count_at (encryptedBiasCount s) category) = true /\
    FHE_requestDecryption (fhe s)
      [FHE_toBytes32 (count_at (encryptedBiasCount s) category)]
      decryptBiasCount_selector = Some (reqId, fhe') /\
    evs = [] /\
    s' = {| articleCount := articleCount s;
            articles := articles s;
            analyses := analyses s;
            encryptedBiasCount := encryptedBiasCount s;
            biasCategoryList := biasCategoryList s;
            requestToArticleId :=
              <[ reqId := keccak256_packed category ]> (requestToArticleId s);
            authorizedAnalysts := authorizedAnalysts s;
            fhe := fhe' |}.
Proof.
  unfold requestBiasCountDecryption, onlyAnalyst. intros Heq. invert_Ok Heq.
  repeat match goal with
         | H : require _ _ = Ok _ |- _ => apply require_Ok_inv in H
         | H : of_option _ _ = Ok _ |- _ => apply of_option_Ok_inv in H
         end.
  eexists _, _. repeat split; eassumption.
Qed.

Lemma decryptBiasCount_Ok_inv e requestId cleartexts proof (s s' : State P) evs :
  decryptBiasCount e requestId cleartexts proof s = Ok (s', evs) ->
  exists category fhe' logged count,
    is_analyst s (msg_sender e) = true /\
    getBiasCategoryFromHash (request_at s requestId) s = Ok category /\
    FHE_checkSignatures (fhe s) requestId cleartexts proof = Some (fhe', logged) /\
    abi_decode_uint32 cleartexts = Some count /\
    evs = map FromLibrary logged /\
    s' = with_fhe s fhe'.
Proof.
  unfold decryptBiasCount, onlyAnalyst. intros Heq.
  apply bind_Ok_inv in Heq as (u & Hauth & Heq).
  apply require_Ok_inv in Hauth.
  apply bind_Ok_inv in Heq as (category & Hcat & Heq).
  apply bind_Ok_inv in Heq as ([fhe' logged] & Hsig & Heq).
  apply of_option_Ok_inv in Hsig. cbv beta iota in Heq.
  apply bind_Ok_inv in Heq as (count & Hdec & Heq).
  apply of_option_Ok_inv in Hdec.
  inversion Heq; subst s' evs; clear Heq.
  exists category, fhe', logged, count. now repeat split.
Qed.

(** The callback, with the decoded values and the labels it stored. *)
Lemma analyzeBias_Ok_full requestId cleartexts proof (s s' : State P) evs :
  analyzeBias requestId cleartexts proof s = Ok (s', evs) ->
  let id := request_at s requestId in
  exists results contentScore sentiment keywords score comparison
         fhe1 logged counts categories fhe2,
    abi_decode_uint32_array cleartexts = Decoded results /\
    results !! 0%nat = Some contentScore /\
    results !! 1%nat = Some sentiment /\
    results !! 2%nat = Some keywords /\
    calculateBiasScore contentScore sentiment = Ok score /\
    compareWithBaseline contentScore sentiment = Ok comparison /\
    FHE_checkSignatures (fhe s) requestId cleartexts proof = Some (fhe1, logged) /\
    tally score (encryptedBiasCount s) (biasCategoryList s) fhe1
    = Ok (counts, categories, fhe2) /\
    evs = map FromLibrary logged ++ [AnalysisCompleted id] /\
    s' = {| articleCount := articleCount s;
            articles := articles s;
            analyses :=
              <[ id := mkBiasAnalysis score comparison
                         (identifyMediaOutlet keywords) true ]> (analyses s);
            encryptedBiasCount := counts;
            biasCategoryList := categories;
            requestToArticleId := requestToArticleId s;
            authorizedAnalysts := authorizedAnalysts s;
            fhe := fhe2 |}.
Proof.
  intros Heq id. unfold analyzeBias in Heq. fold id in Heq.
  apply bind_Ok_inv in Heq as (u1 & _ & Heq).
  apply bind_Ok_inv in Heq as (u2 & _ & Heq).
  apply bind_Ok_inv in Heq as ([fhe1 logged] & Hsig & Heq).
  apply of_option_Ok_inv in Hsig. cbv beta iota in Heq.
  apply bind_Ok_inv in Heq as (results & Hdec & Heq).
  apply of_decoded_Ok_inv in Hdec.
  apply bind_Ok_inv in Heq as (contentScore & H0 & Heq).
  apply of_option_Ok_inv in H0.
  apply bind_Ok_inv in Heq as (sentiment & H1 & Heq).
  apply of_option_Ok_inv in H1.
  apply bind_Ok_inv in Heq as (keywords & H2 & Heq).
  apply of_option_Ok_inv in H2.
  apply bind_Ok_inv in Heq as (score & Hscore & Heq).
  apply bind_Ok_inv in Heq as (comparison & Hcmp & Heq).
  cbn [biasScore] in Heq.
  apply bind_Ok_inv in Heq as ([[counts categories] fhe2] & Htally & Heq).
  cbv beta iota in Heq.
  inversion Heq; subst s' evs; clear Heq.
  exists results, contentScore, sentiment, keywords, score, comparison,
         fhe1, logged, counts, categories, fhe2.
  repeat split; assumption.
Qed.

(** Who may be an analyst changes only by [authorizeAnalyst], sent by an
    analyst. *)
Lemma analysts_step e c (s s' : State P) evs :
  exec e c s = Ok (s', evs) ->
  authorizedAnalysts s' = authorizedAnalysts s
  \/ exists analyst,
       c = AuthorizeAnalyst analyst /\
       is_analyst s (msg_sender e) = true /\
       authorizedAnalysts s' = <[ analyst := true ]> (authorizedAnalysts s).
Proof.
  destruct c as [analyst | c1 c2 c3 | id | r ct pf | category | r ct pf];
    cbn [exec]; intros Heq.
  - apply authorizeAnalyst_Ok_inv in Heq as (Hauth & _ & ->).
    right. exists analyst. now repeat split.
  - apply submitEncryptedArticle_Ok_full in Heq as ->. now left.
  - apply requestBiasAnalysis_Ok_inv in Heq as (? & ? & _ & _ & _ & _ & ->).
    now left.
  - apply analyzeBias_Ok_inv in Heq
      as (? & ? & logged & tcounts & tcategories & tfhe
          & _ & _ & _ & _ & Htally & _ & ->).
    now left.
  - apply requestBiasCountDecryption_Ok_inv in Heq
      as (? & ? & _ & _ & _ & _ & ->). now left.
  - apply decryptBiasCount_Ok_inv in Heq
      as (? & ? & ? & ? & _ & _ & _ & _ & _ & ->). now left.
Qed.

(** The request map is only ever extended or overwritten at one key. *)
Lemma requests_step e c (s s' : State P) evs :
  exec e c s = Ok (s', evs) ->
  requestToArticleId s' = requestToArticleId s
  \/ exists reqId target,
       requestToArticleId s' = <[ reqId := target ]> (requestToArticleId s).
Proof.
  destruct c as [analyst | c1 c2 c3 | id | r ct pf | category | r ct pf];
    cbn [exec]; intros Heq.
  - apply authorizeAnalyst_Ok_inv in Heq as (_ & _ & ->). now left.
  - apply submitEncryptedArticle_Ok_full in Heq as ->. now left.
  - apply requestBiasAnalysis_Ok_inv in Heq as (? & ? & _ & _ & _ & _ & ->).
    right. eauto.
  - apply analyzeBias_Ok_inv in Heq
      as (? & ? & logged & tcounts & tcategories & tfhe
          & _ & _ & _ & _ & Htally & _ & ->).
    now left.
  - apply requestBiasCountDecryption_Ok_inv in Heq
      as (? & ? & _ & _ & _ & _ & ->). right. eauto.
  - apply decryptBiasCount_Ok_inv in Heq
      as (? & ? & ? & ? & _ & _ & _ & _ & _ & ->). now left.
Qed.

End Transactions.

(** ** Histories *)

Section Histories.
Context {P : Platform}.

Lemma run_cons_state e c txs (s : State P) :
  (run ((e, c) :: txs) s).1 = (run txs (post s (exec e c s))).1.
Proof. cbn [run]. now destruct (run txs (post s (exec e c s))). Qed.

Lemma run_cons_log e c txs (s : State P) :
  (run ((e, c) :: txs) s).2
  = emitted (exec e c s) ++ (run txs (post s (exec e c s))).2.
Proof. cbn [run]. now destruct (run txs (post s (exec e c s))). Qed.

Lemma run_app_state txs1 txs2 : forall s : State P,
  (run (txs1 ++ txs2) s).1 = (run txs2 (run txs1 s).1).1.
Proof.
  induction txs1 as [| [e c] txs1 IH]; intros s; [reflexivity |].
  cbn [app]. now rewrite !run_cons_state, IH.
Qed.

(** What every transaction keeps, a history keeps. *)
Lemma run_invariant (I : State P -> Prop) :
  (forall e c s, I s -> I (post s (exec e c s))) ->
  forall txs s, I s -> I (run txs s).1.
Proof.
  intros Hstep txs. induction txs as [| [e c] txs IH]; intros s Hs; [exact Hs |].
  rewrite run_cons_state. apply IH, Hstep, Hs.
Qed.

Lemma reachable_run txs (s : State P) : reachable s -> reachable (run txs s).1.
Proof. apply run_invariant. intros e c s0. apply reachable_post. Qed.

Lemma is_analyst_insert (s : State P) m analyst a :
  authorizedAnalysts s = <[ analyst := true ]> m ->
  is_analyst s a = if decide (analyst = a) then true else default false (m !! a).
Proof.
  intros Heq. unfold is_analyst. rewrite Heq, lookup_insert.
  now destruct (decide (analyst = a)).
Qed.

Lemma is_analyst_post e c (s : State P) a :
  is_analyst s a = true -> is_analyst (post s (exec e c s)) a = true.
Proof.
  intros Ha. destruct (exec e c s) as [[s' evs] | f] eqn:Heq; cbn [post];
    [| assumption].
  destruct (analysts_step _ _ _ _ _ Heq) as [Hsame | (analyst & _ & _ & Hins)].
  - unfold is_analyst in *. now rewrite Hsame.
  - rewrite (is_analyst_insert _ _ _ _ Hins).
    destruct (decide (analyst = a)); [reflexivity | exact Ha].
Qed.

End Histories.

(** ** Authorization *)

Section Authorization.
Context {P : Platform}.

(** X4: a caller outside the analyst set cannot run any of the five
    functions that carry [onlyAnalyst]: each of them fails with
    Unauthorized, whatever its arguments, and the storage, the article
    counter included, stays as it was. *)
Theorem gated_call_unauthorized (e : Env) (c : call) (s : State P) :
  is_analyst s (msg_sender e) = false ->
  gated c = true ->
  exec e c s = Revert Unauthorized /\
  post s (exec e c s) = s /\
  emitted (exec e c s) = [].
Proof.
  intros Hno Hgated.
  assert (Hrev : exec e c s = Revert Unauthorized).
  { destruct c; try discriminate Hgated; cbn [exec];
      unfold authorizeAnalyst, submitEncryptedArticle, requestBiasAnalysis,
             requestBiasCountDecryption, decryptBiasCount;
      now rewrite onlyAnalyst_stranger. }
  rewrite Hrev. now repeat split.
Qed.

(** X5: authorization is grant-only.  Along every history an address that
    is an analyst stays one; in particular the deployer is an analyst in
    every state that follows deployment. *)
Theorem analysts_never_revoked (txs : list (Env * call)) (s : State P)
    (a : address) :
  is_analyst s a = true ->
  is_analyst (run txs s).1 a = true /\
  (forall e fhe0, is_analyst (run txs (constructor e fhe0)).1 (msg_sender e) = true).
Proof.
  intros Ha. split.
  - revert s Ha. apply (run_invariant (fun s => is_analyst s a = true)).
    intros e c s. apply is_analyst_post.
  - intros e fhe0.
    apply (run_invariant (fun s => is_analyst s (msg_sender e) = true)).
    + intros e' c s'. apply is_analyst_post.
    + unfold is_analyst. cbn. now rewrite lookup_singleton_eq.
Qed.

(** X6: nobody becomes an analyst on the side.  If an address is not an
    analyst before a history and is one after it, the history contains an
    [authorizeAnalyst] call naming that address, sent by an address that
    was an analyst at that moment. *)
Theorem analyst_provenance (txs : list (Env * call)) : forall (s : State P)
    (a : address),
  is_analyst s a = false ->
  is_analyst (run txs s).1 a = true ->
  exists before e after,
    txs = before ++ (e, AuthorizeAnalyst a) :: after /\
    is_analyst (run before s).1 (msg_sender e) = true /\
    is_analyst (run before s).1 a = false.
Proof.
  induction txs as [| [e c] txs IH]; intros s a Hno Hyes.
  - cbn in Hyes. congruence.
  - rewrite run_cons_state in Hyes.
    destruct (is_analyst (post s (exec e c s)) a) eqn:Hmid.
    + destruct (exec e c s) as [[s' evs] | f] eqn:Heq; cbn [post] in Hmid;
        [| congruence].
      destruct (analysts_step _ _ _ _ _ Heq) as [Hsame | (analyst & -> & Hauth & Hins)].
      { unfold is_analyst in Hmid, Hno. rewrite Hsame in Hmid. congruence. }
      rewrite (is_analyst_insert _ _ _ _ Hins) in Hmid.
      destruct (decide (analyst = a)) as [-> | Hne].
      * exists [], e, txs. now repeat split.
      * unfold is_analyst in Hno. congruence.
    + destruct (IH _ _ Hmid Hyes) as (before & e' & after & -> & Hauth & Hnot).
      exists ((e, c) :: before), e', after.
      rewrite !run_cons_state. now repeat split.
Qed.

(** X7: [authorizeAnalyst] sent by an analyst always succeeds, emits
    nothing and makes the named address an analyst; when that address
    already is one, the whole storage is left as it was. *)
Theorem authorizeAnalyst_grants (e : Env) (analyst : address) (s : State P) :
  is_analyst s (msg_sender e) = true ->
  exists s',
    exec e (AuthorizeAnalyst analyst) s = Ok (s', []) /\
    is_analyst s' analyst = true /\
    (forall a, a <> analyst -> is_analyst s' a = is_analyst s a) /\
    (is_analyst s analyst = true -> s' = s).
Proof.
  intros Hauth. cbn [exec]. unfold authorizeAnalyst.
  rewrite (onlyAnalyst_analyst _ _ Hauth). cbn.
  eexists. split; [reflexivity |]. split; [| split].
  - unfold is_analyst. cbn. now rewrite lookup_insert_eq.
  - intros a Hne. unfold is_analyst. cbn. now rewrite lookup_insert_ne.
  - intros Halready. destruct s as [n ar an cnt cats reqs auth f].
    unfold is_analyst in Halready. cbn in *. f_equal.
    apply insert_id. destruct (auth !! analyst) as [[|] |]; cbn in *; congruence.
Qed.

End Authorization.

(** ** The article and analysis records *)

Section Records.
Context {P : Platform}.

Lemma ids_inv_post e c (s : State P) : ids_inv s -> ids_inv (post s (exec e c s)).
Proof.
  intros Hs. destruct (exec e c s) as [[s' evs] | f] eqn:Heq; cbn [post];
    [eapply ids_inv_step; eassumption | assumption].
Qed.

Lemma assigned_post e c (s : State P) id :
  assigned s id -> assigned (post s (exec e c s)) id.
Proof.
  unfold assigned. intros Hid.
  destruct (exec_ids e c s) as [[_ Hc] | [_ Hc]]; rewrite Hc; lia.
Qed.

Lemma articles_at_post e c (s : State P) id :
  assigned s id -> articles_at (post s (exec e c s)) id = articles_at s id.
Proof.
  intros Hid. destruct (exec e c s) as [[s' evs] | f] eqn:Heq; cbn [post];
    [| reflexivity].
  destruct (exec_Ok_cases _ _ _ _ _ Heq)
    as [(c1 & c2 & c3 & ->) | [(r & ct & pf & ->) | [Hsame _]]].
  - cbn [exec] in Heq. apply submitEncryptedArticle_Ok_full in Heq.
    cbv zeta in Heq. subst s'. unfold articles_at. cbn [articles].
    rewrite lookup_insert_ne; [reflexivity |]. unfold assigned in Hid. lia.
  - cbn [exec] in Heq.
    apply analyzeBias_Ok_inv in Heq
      as (? & ? & logged & tcounts & tcategories & tfhe
          & _ & _ & _ & _ & Htally & _ & ->).
    reflexivity.
  - destruct Hsame as (_ & Ha & _). unfold articles_at. now rewrite Ha.
Qed.

(** A completed analysis of an assigned article survives every
    transaction. *)
Lemma analyses_at_post e c (s : State P) id :
  assigned s id ->
  isAnalyzed (analyses_at s id) = true ->
  analyses_at (post s (exec e c s)) id = analyses_at s id.
Proof.
  intros Hid Hdone. destruct (exec e c s) as [[s' evs] | f] eqn:Heq; cbn [post];
    [| reflexivity].
  destruct (exec_Ok_cases _ _ _ _ _ Heq)
    as [(c1 & c2 & c3 & ->) | [(r & ct & pf & ->) | [Hsame _]]].
  - cbn [exec] in Heq. apply submitEncryptedArticle_Ok_full in Heq.
    cbv zeta in Heq. subst s'. unfold analyses_at. cbn [analyses].
    rewrite lookup_insert_ne; [reflexivity |]. unfold assigned in Hid. lia.
  - cbn [exec] in Heq.
    apply analyzeBias_Ok_inv in Heq
      as (? & ? & logged & tcounts & tcategories & tfhe
          & _ & Hfresh & _ & _ & Htally & _ & ->).
    unfold analyses_at. cbn [analyses].
    rewrite lookup_insert_ne; [reflexivity |]. intros Heq. rewrite Heq in Hfresh.
    congruence.
  - destruct Hsame as (_ & _ & Ha & _). unfold analyses_at. now rewrite Ha.
Qed.

Lemma articles_self_reachable (s : State P) : reachable s -> articles_self s.
Proof.
  induction 1 as [e fhe0 | s e c s' evs Hreach IH Hstep].
  - intros id Hid. unfold assigned in Hid. cbn in Hid. lia.
  - intros id Hid.
    destruct (exec_Ok_cases _ _ _ _ _ Hstep)
      as [(c1 & c2 & c3 & ->) | [(r & ct & pf & ->) | [Hsame _]]].
    + cbn [exec] in Hstep. apply submitEncryptedArticle_Ok_full in Hstep.
      cbv zeta in Hstep. subst s'. unfold assigned in Hid. cbn in Hid.
      unfold articles_at. cbn [articles].
      destruct (decide (articleCount s + 1 = id)) as [<- | Hne].
      * now rewrite lookup_insert_eq.
      * rewrite lookup_insert_ne by assumption. apply IH. unfold assigned. lia.
    + cbn [exec] in Hstep.
      apply analyzeBias_Ok_inv in Hstep
      as (? & ? & logged & tcounts & tcategories & tfhe
          & _ & _ & _ & _ & Htally & _ & ->).
      apply IH, Hid.
    + destruct Hsame as (Hc & Ha & _). unfold articles_at. rewrite Ha.
      apply IH. unfold assigned in *. now rewrite <- Hc.
Qed.

(** X8: a submission by an analyst succeeds unless the counter is at
    [2^256 - 1], where it panics.  On success the new id is the old counter
    plus one, the record stored under it carries the three handles, the id
    and the block time, its analysis reads as empty and not analyzed, and
    no other slot of [articles] or [analyses] changes. *)
Theorem submitEncryptedArticle_stores (e : Env) (c1 c2 c3 : euint32) (s : State P) :
  reachable s ->
  is_analyst s (msg_sender e) = true ->
  let newId := articleCount s + 1 in
  (articleCount s < max_uint256 ->
   exists s',
     exec e (SubmitEncryptedArticle c1 c2 c3) s
     = Ok (s', [ArticleSubmitted newId (block_timestamp e)]) /\
     articleCount s' = newId /\
     articles_at s' newId = mkEncryptedArticle newId c1 c2 c3 (block_timestamp e) /\
     getBiasAnalysis newId s' = (EmptyString, EmptyString, EmptyString, false) /\
     (forall id, id <> newId ->
                 articles_at s' id = articles_at s id /\
                 analyses_at s' id = analyses_at s id)) /\
  (articleCount s = max_uint256 ->
   exec e (SubmitEncryptedArticle c1 c2 c3) s = Revert ArithmeticOverflow).
Proof.
  intros Hreach Hauth newId.
  apply ids_inv_reachable in Hreach as (Hcount & _ & _).
  cbn [exec]. unfold submitEncryptedArticle, add256.
  rewrite (onlyAnalyst_analyst _ _ Hauth). cbn. split.
  - intros Hroom. rewrite checked_in_range by lia. cbn.
    eexists. split; [reflexivity |]. split; [reflexivity |].
    unfold articles_at, getBiasAnalysis, analyses_at. cbn.
    rewrite !lookup_insert_eq. cbn. repeat split.
    + now rewrite lookup_insert_ne by (fold newId; congruence).
    + now rewrite lookup_insert_ne by (fold newId; congruence).
  - intros Hfull. now rewrite checked_above by lia.
Qed.

(** X9: a stored article is never overwritten.  For an id a submission has
    assigned, the record under it carries that id, and along every later
    history the id stays assigned and the record stays what it is. *)
Theorem articles_immutable (txs : list (Env * call)) (s : State P) (id : Z) :
  reachable s ->
  assigned s id ->
  articleId (articles_at s id) = id /\
  assigned (run txs s).1 id /\
  articles_at (run txs s).1 id = articles_at s id.
Proof.
  intros Hreach Hid. split; [now apply articles_self_reachable |].
  apply (run_invariant
           (fun s' => assigned s' id /\ articles_at s' id = articles_at s id));
    [| now split].
  intros e c s0 [Hid0 Heq]. split.
  - now apply assigned_post.
  - now rewrite articles_at_post.
Qed.

(** X10: a completed analysis is final.  Once the analysis of an assigned
    article is marked analyzed, no history of transactions changes it:
    [getBiasAnalysis] returns the same four values ever after. *)
Theorem analysis_final (txs : list (Env * call)) (s : State P) (id : Z) :
  assigned s id ->
  isAnalyzed (analyses_at s id) = true ->
  analyses_at (run txs s).1 id = analyses_at s id /\
  getBiasAnalysis id (run txs s).1 = getBiasAnalysis id s.
Proof.
  intros Hid Hdone.
  assert (Hkept : assigned (run txs s).1 id
                  /\ analyses_at (run txs s).1 id = analyses_at s id).
  { apply (run_invariant
             (fun s' => assigned s' id /\ analyses_at s' id = analyses_at s id));
      [| now split].
    intros e c s0 [Hid0 Heq]. split.
    - now apply assigned_post.
    - rewrite analyses_at_post; [assumption | assumption |]. now rewrite Heq. }
  destruct Hkept as [_ Hkept]. split; [assumption |].
  unfold getBiasAnalysis. now rewrite Hkept.
Qed.

End Records.

(** ** What the callback leaves behind *)

Section Completed.
Context {P : Platform}.

Lemma tally_categories_cases category counts categories f counts' categories' f' :
  tally category counts categories f = Ok (counts', categories', f') ->
  categories' = categories \/ categories' = categories ++ [category].
Proof.
  intros Htally.
  apply tally_Ok_inv in Htally
    as (base & counts1 & f1 & one & f2 & sum & Hfirst & _).
  destruct Hfirst as [(_ & _ & _ & -> & _) | (_ & _ & _ & ->)]; auto.
Qed.

Lemma analyses_wf_step e c (s s' : State P) evs :
  analyses_wf s -> exec e c s = Ok (s', evs) -> analyses_wf s'.
Proof.
  intros Hwf Heq id.
  destruct (exec_Ok_cases _ _ _ _ _ Heq)
    as [(c1 & c2 & c3 & ->) | [(r & ct & pf & ->) | [Hsame _]]].
  - cbn [exec] in Heq. apply submitEncryptedArticle_Ok_full in Heq.
    cbv zeta in Heq. subst s'. unfold analyses_at. cbn [analyses].
    destruct (decide (articleCount s + 1 = id)) as [<- | Hne].
    + rewrite lookup_insert_eq. now left.
    + rewrite lookup_insert_ne by assumption. apply Hwf.
  - cbn [exec] in Heq.
    apply analyzeBias_Ok_full in Heq
      as (results & cs & se & k & score & cmp & fhe' & logged
          & tcounts & tcategories & tfhe
          & _ & _ & _ & _ & Hscore & Hcmp & _ & Htally & _ & ->).
    unfold analyses_at. cbn [analyses].
    destruct (decide (request_at s r = id)) as [<- | Hne].
    + rewrite lookup_insert_eq. right. cbn. repeat split.
      * eapply calculateBiasScore_label, Hscore.
      * eapply compareWithBaseline_label, Hcmp.
      * apply identifyMediaOutlet_label.
    + rewrite lookup_insert_ne by assumption. apply Hwf.
  - destruct Hsame as (_ & _ & Ha & _). unfold analyses_at. rewrite Ha. apply Hwf.
Qed.

Lemma categories_are_tiers_step e c (s s' : State P) evs :
  categories_are_tiers s -> exec e c s = Ok (s', evs) -> categories_are_tiers s'.
Proof.
  intros Htiers Heq category.
  destruct (exec_Ok_cases _ _ _ _ _ Heq)
    as [(c1 & c2 & c3 & ->) | [(r & ct & pf & ->) | [Hsame _]]].
  - cbn [exec] in Heq. apply submitEncryptedArticle_Ok_full in Heq.
    cbv zeta in Heq. subst s'. apply Htiers.
  - cbn [exec] in Heq.
    apply analyzeBias_Ok_full in Heq
      as (results & cs & se & k & score & cmp & fhe' & logged
          & tcounts & tcategories & tfhe
          & _ & _ & _ & _ & Hscore & _ & _ & Htally & _ & ->).
    cbn [biasCategoryList].
    destruct (tally_categories_cases _ _ _ _ _ _ _ Htally) as [-> | ->];
      [apply Htiers |].
    rewrite elem_of_app, list_elem_of_singleton. intros [Hin | ->].
    + now apply Htiers.
    + eapply calculateBiasScore_label, Hscore.
  - destruct Hsame as (_ & _ & _ & _ & Hl). rewrite Hl. apply Htiers.
Qed.

(** X11: every stored analysis is all-or-nothing.  In every reachable
    state the analysis at any id is either the empty record with
    [isAnalyzed = false], or is marked analyzed and carries one of the four
    bias tiers, one of the three deviation classes and one of the five
    outlets; a half-written analysis never exists. *)
Theorem analyses_all_or_nothing (s : State P) (id : Z) :
  reachable s ->
  analysis_wf (analyses_at s id) /\
  (isAnalyzed (analyses_at s id) = false ->
   getBiasAnalysis id s = (EmptyString, EmptyString, EmptyString, false)) /\
  (isAnalyzed (analyses_at s id) = true ->
   biasScore (analyses_at s id) ∈ bias_tiers /\
   comparisonResult (analyses_at s id) ∈ deviation_classes /\
   mediaOutlet (analyses_at s id) ∈ outlets).
Proof.
  intros Hreach.
  assert (Hwf : analyses_wf s).
  { induction Hreach as [e fhe0 | s e c s' evs _ IH Hstep].
    - intros i. left. unfold analyses_at. cbn. now rewrite lookup_empty.
    - eapply analyses_wf_step; eassumption. }
  split; [apply Hwf |]. split.
  - intros Hopen. unfold getBiasAnalysis.
    destruct (Hwf id) as [-> | (Hdone & _)]; [reflexivity | congruence].
  - intros Hdone.
    destruct (Hwf id) as [Hzero | (_ & Hlabels)]; [| exact Hlabels].
    rewrite Hzero in Hdone. discriminate Hdone.
Qed.

(** X12: the discovery list holds bias tiers only, so with a library whose
    handles are initialized it never grows beyond four entries, and the
    scan of [getBiasCategoryFromHash] visits at most four labels. *)
Theorem categories_bounded {L : PlatformLaws P} (s : State P) :
  reachable s ->
  (forall category, category ∈ biasCategoryList s -> category ∈ bias_tiers) /\
  (length (biasCategoryList s) <= 4)%nat.
Proof.
  intros Hreach.
  assert (Htiers : categories_are_tiers s).
  { clear L. induction Hreach as [e fhe0 | s e c s' evs _ IH Hstep].
    - intros category Hin. cbn in Hin. now apply not_elem_of_nil in Hin.
    - eapply categories_are_tiers_step; eassumption. }
  split; [exact Htiers |].
  destruct (ledger_inv_reachable s Hreach) as (Hnodup & _).
  change 4%nat with (length bias_tiers).
  apply submseteq_length, NoDup_submseteq; assumption.
Qed.

Lemma completions_app id log1 log2 :
  completions id (log1 ++ log2) = (completions id log1 + completions id log2)%nat.
Proof.
  induction log1 as [| ev log1 IH]; [reflexivity |].
  destruct ev as [i t | i | i | ev]; cbn; try exact IH.
  destruct (i =? id); cbn; now rewrite IH.
Qed.

Lemma completions_library id logged : completions id (map FromLibrary logged) = 0%nat.
Proof. induction logged as [| ev logged IH]; [reflexivity | exact IH]. Qed.

(** One transaction announces the completion of [id] at most once, and
    only by flipping its flag from clear to set. *)
Lemma completions_step e c (s : State P) id :
  completions id (emitted (exec e c s)) = 0%nat
  \/ (completions id (emitted (exec e c s)) = 1%nat /\
      isAnalyzed (analyses_at s id) = false /\
      isAnalyzed (analyses_at (post s (exec e c s)) id) = true).
Proof.
  destruct (exec e c s) as [[s' evs] | f] eqn:Heq; cbn [emitted post];
    [| now left].
  destruct c as [analyst | c1 c2 c3 | i | r ct pf | category | r ct pf];
    cbn [exec] in Heq.
  - left. apply authorizeAnalyst_frame in Heq as [_ ->]. reflexivity.
  - left. apply submitEncryptedArticle_Ok_inv in Heq as (_ & _ & -> & _).
    reflexivity.
  - left. apply requestBiasAnalysis_frame in Heq as [_ ->]. reflexivity.
  - apply analyzeBias_Ok_inv in Heq
      as (analysis' & fhe' & logged & tcounts & tcategories & tfhe
        & _ & Hfresh & Hdone & _ & Htally & -> & ->).
    rewrite completions_app, completions_library. cbn [completions Nat.add].
    destruct (Z.eqb_spec (request_at s r) id) as [<- | Hne].
    + right. split; [reflexivity |]. split; [assumption |].
      unfold analyses_at. cbn [analyses]. now rewrite lookup_insert_eq.
    + now left.
  - left. apply requestBiasCountDecryption_frame in Heq as [_ ->]. reflexivity.
  - left. apply decryptBiasCount_frame in Heq as [_ [logged ->]].
    apply completions_library.
Qed.

End Completed.

(** ** The callback, case by case *)

Section CallbackCases.
Context {P : Platform}.

(** X13: an assigned article is completed at most once.  Along every
    history the log holds at most one [AnalysisCompleted] event for it, and
    none at all if its analysis was already marked analyzed at the start. *)
Theorem completed_at_most_once (txs : list (Env * call)) : forall (s : State P)
    (id : Z),
  assigned s id ->
  (completions id (run txs s).2 <= 1)%nat /\
  (isAnalyzed (analyses_at s id) = true ->
   completions id (run txs s).2 = 0%nat).
Proof.
  induction txs as [| [e c] txs IH]; intros s id Hid.
  - cbn. split; [lia | reflexivity].
  - rewrite run_cons_log, completions_app.
    destruct (IH (post s (exec e c s)) id (assigned_post e c s id Hid))
      as [Hle Hzero].
    destruct (completions_step e c s id) as [Hnone | (Hone & Hfresh & Hdone)].
    + rewrite Hnone. split; [exact Hle |].
      intros Hdone. apply Hzero.
      now rewrite (analyses_at_post e c s id Hid Hdone).
    + rewrite Hone, (Hzero Hdone). split; [lia | congruence].
Qed.

(** The callback goes through when both guards pass and the library, the
    decoder and the arithmetic all accept; this is what it returns. *)
Lemma analyzeBias_Ok_intro requestId cleartexts proof (s : State P)
    contentScore sentiment keywords rest fhe1 logged base f1 one f2 sum f3 :
  request_at s requestId <> 0 ->
  isAnalyzed (analyses_at s (request_at s requestId)) = false ->
  FHE_checkSignatures (fhe s) requestId cleartexts proof = Some (fhe1, logged) ->
  abi_decode_uint32_array cleartexts
  = Decoded (contentScore :: sentiment :: keywords :: rest) ->
  is_uint32 contentScore -> is_uint32 sentiment ->
  contentScore * 2 + sentiment * 3 <= max_uint32 ->
  let id := request_at s requestId in
  let tier := classifyBiasTier contentScore sentiment in
  let old := getEncryptedBiasCount tier s in
  (if FHE_isInitialized old then Some (old, fhe1) else FHE_asEuint32 fhe1 0)
  = Some (base, f1) ->
  FHE_asEuint32 f1 1 = Some (one, f2) ->
  FHE_add f2 base one = Some (sum, f3) ->
  analyzeBias requestId cleartexts proof s
  = Ok ({| articleCount := articleCount s;
           articles := articles s;
           analyses :=
             <[ id := mkBiasAnalysis tier
                        (classifyDeviation contentScore sentiment)
                        (identifyMediaOutlet keywords) true ]> (analyses s);
           encryptedBiasCount :=
             <[ tier := sum ]>
               (if FHE_isInitialized old then encryptedBiasCount s
                else <[ tier := base ]> (encryptedBiasCount s));
           biasCategoryList :=
             if FHE_isInitialized old then biasCategoryList s
             else biasCategoryList s ++ [tier];
           requestToArticleId := requestToArticleId s;
           authorizedAnalysts := authorizedAnalysts s;
           fhe := f3 |},
        map FromLibrary logged ++ [AnalysisCompleted id]).
Proof.
  intros Hid Hfresh Hsig Hdec Hc Hs Hfit id tier old Hbase Hone Hsum.
  unfold analyzeBias. fold id. apply Z.eqb_neq in Hid. fold id in Hid, Hfresh.
  rewrite Hid, Hfresh, Hsig, Hdec. cbn.
  rewrite (calculateBiasScore_fits _ _ Hc Hs Hfit). cbn.
  rewrite (compareWithBaseline_spec _ _ Hc Hs). cbn. fold tier.
  unfold tally. subst old. unfold getEncryptedBiasCount in *.
  destruct (FHE_isInitialized (count_at (encryptedBiasCount s) tier)) eqn:Hinit;
    cbn [negb].
  - inversion Hbase; subst base f1; clear Hbase. cbn.
    rewrite Hone. cbn. rewrite Hsum. reflexivity.
  - rewrite Hbase. cbn. rewrite Hone. cbn.
    unfold count_at at 1. rewrite lookup_insert_eq. cbn.
    rewrite Hsum. reflexivity.
Qed.

(** X14: what a well-formed callback commits.  For a request that names a
    non-zero id whose analysis is still open, with signatures accepted,
    cleartexts decoding to at least three [uint32] values whose weighted sum
    fits, and the library accepting the two or three calls that update the
    counter, [analyzeBias] succeeds for any caller.  Its log is what
    [FHE.checkSignatures] logged followed by [AnalysisCompleted]; it stores
    the three labels computed from the first three values with
    [isAnalyzed = true]; the tier's counter becomes the handle returned by
    [FHE.add] on the old counter (on a fresh encrypted zero when the old one
    was not initialized, in which case the tier is appended to the list) and
    an encrypted one; no other analysis, counter, article, request or
    analyst changes.  Values after the third are ignored. *)
Theorem analyzeBias_commits (e : Env) (requestId : Z) (cleartexts proof : bytes)
    (s : State P) (contentScore sentiment keywords : Z) (rest : list Z)
    (fhe1 f1 f2 f3 : FHEState) (logged : list library_event)
    (base one sum : euint32) :
  request_at s requestId <> 0 ->
  isAnalyzed (analyses_at s (request_at s requestId)) = false ->
  FHE_checkSignatures (fhe s) requestId cleartexts proof = Some (fhe1, logged) ->
  abi_decode_uint32_array cleartexts
  = Decoded (contentScore :: sentiment :: keywords :: rest) ->
  is_uint32 contentScore -> is_uint32 sentiment ->
  contentScore * 2 + sentiment * 3 <= max_uint32 ->
  let id := request_at s requestId in
  let tier := classifyBiasTier contentScore sentiment in
  let old := getEncryptedBiasCount tier s in
  (if FHE_isInitialized old then Some (old, fhe1) else FHE_asEuint32 fhe1 0)
  = Some (base, f1) ->
  FHE_asEuint32 f1 1 = Some (one, f2) ->
  FHE_add f2 base one = Some (sum, f3) ->
  exists s',
    exec e (AnalyzeBias requestId cleartexts proof) s
    = Ok (s', map FromLibrary logged ++ [AnalysisCompleted id]) /\
    getBiasAnalysis id s'
    = (tier, classifyDeviation contentScore sentiment,
       identifyMediaOutlet keywords, true) /\
    (forall i, i <> id -> analyses_at s' i = analyses_at s i) /\
    getEncryptedBiasCount tier s' = sum /\
    (forall other, other <> tier ->
                   getEncryptedBiasCount other s' = getEncryptedBiasCount other s) /\
    biasCategoryList s'
    = (if FHE_isInitialized old then biasCategoryList s
       else biasCategoryList s ++ [tier]) /\
    articleCount s' = articleCount s /\
    articles s' = articles s /\
    requestToArticleId s' = requestToArticleId s /\
    authorizedAnalysts s' = authorizedAnalysts s.
Proof.
  intros Hid Hfresh Hsig Hdec Hc Hs Hfit id tier old Hbase Hone Hsum.
  cbn [exec].
  rewrite (analyzeBias_Ok_intro _ _ _ _ _ _ _ _ _ _ _ _ _ _ _ _
             Hid Hfresh Hsig Hdec Hc Hs Hfit Hbase Hone Hsum).
  cbv zeta. fold id tier old.
  eexists. split; [reflexivity |].
  unfold getBiasAnalysis, getEncryptedBiasCount, analyses_at, count_at. cbn.
  rewrite !lookup_insert_eq. cbn. repeat split; try reflexivity.
  - intros i Hne. now rewrite lookup_insert_ne by congruence.
  - intros other Hne. rewrite lookup_insert_ne by congruence.
    destruct (FHE_isInitialized old); [reflexivity |].
    now rewrite lookup_insert_ne by congruence.
Qed.

(** X15: what a callback with a bad payload meets, in the order of the
    source.  For a request that names a non-zero id whose analysis is still
    open: rejected signatures give the library's revert; accepted signatures
    with cleartexts that do not decode give the decoder's revert, and with a
    length word too large for memory its allocation panic; fewer than three
    decoded values give the index-out-of-bounds panic; three [uint32] values
    whose weighted sum exceeds [2^32 - 1] give the overflow panic. *)
Theorem analyzeBias_bad_payload (e : Env) (requestId : Z) (cleartexts proof : bytes)
    (s : State P) :
  request_at s requestId <> 0 ->
  isAnalyzed (analyses_at s (request_at s requestId)) = false ->
  let r := exec e (AnalyzeBias requestId cleartexts proof) s in
  (FHE_checkSignatures (fhe s) requestId cleartexts proof = None ->
   r = Revert LibraryRevert) /\
  (forall fhe1 logged,
     FHE_checkSignatures (fhe s) requestId cleartexts proof = Some (fhe1, logged) ->
     (abi_decode_uint32_array cleartexts = Malformed -> r = Revert DecodeFailure) /\
     (abi_decode_uint32_array cleartexts = AllocationTooLarge ->
      r = Revert MemoryOverflow) /\
     (forall results, abi_decode_uint32_array cleartexts = Decoded results ->
                      (length results < 3)%nat -> r = Revert IndexOutOfBounds) /\
     (forall contentScore sentiment keywords rest,
        abi_decode_uint32_array cleartexts
        = Decoded (contentScore :: sentiment :: keywords :: rest) ->
        is_uint32 contentScore -> is_uint32 sentiment ->
        max_uint32 < contentScore * 2 + sentiment * 3 ->
        r = Revert ArithmeticOverflow)).
Proof.
  intros Hid Hfresh r. subst r. cbn [exec]. unfold analyzeBias.
  apply Z.eqb_neq in Hid. rewrite Hid, Hfresh. cbn. split.
  - intros Hsig. now rewrite Hsig.
  - intros fhe1 logged Hsig. rewrite Hsig. cbn. split; [| split; [| split]].
    + intros Hdec. now rewrite Hdec.
    + intros Hdec. now rewrite Hdec.
    + intros results Hdec Hshort. rewrite Hdec. cbn.
      destruct results as [| a [| b [| c rest]]]; cbn in *; try reflexivity.
      lia.
    + intros contentScore sentiment keywords rest Hdec Hc Hs Hbig.
      rewrite Hdec. cbn.
      now rewrite (calculateBiasScore_overflows _ _ Hc Hs Hbig).
Qed.

(** X16: a callback for a request id that was never registered, or that
    was registered for article id 0, fails with InvalidRequest; a request
    made for id 0 can therefore never be answered. *)
Theorem analyzeBias_unregistered (e : Env) (requestId : Z) (cleartexts proof : bytes)
    (s : State P) :
  requestToArticleId s !! requestId = None
  \/ requestToArticleId s !! requestId = Some 0 ->
  exec e (AnalyzeBias requestId cleartexts proof) s = Revert InvalidRequest.
Proof.
  intros Hreq. cbn [exec]. apply analyzeBias_unknown_request.
  unfold request_at. now destruct Hreq as [-> | ->].
Qed.

End CallbackCases.

(** ** Category counters and their decryption *)

Section Categories.
Context {P : Platform}.

Lemma scanCategories_Ok categories hash c :
  scanCategories categories hash = Ok c ->
  c ∈ categories /\ keccak256_packed c = hash.
Proof.
  induction categories as [| c0 rest IH]; cbn; [discriminate |].
  destruct (Z.eqb_spec (keccak256_packed c0) hash) as [Heq | Hne]; intros Hok.
  - inversion Hok; subst c. split; [apply list_elem_of_here | assumption].
  - destruct (IH Hok) as [Hin Hhash]. split; [now apply list_elem_of_further | assumption].
Qed.

Lemma scanCategories_Revert categories hash f :
  scanCategories categories hash = Revert f ->
  f = CategoryNotFound /\ forall c, c ∈ categories -> keccak256_packed c <> hash.
Proof.
  induction categories as [| c0 rest IH]; cbn.
  - intros Heq. inversion Heq. split; [reflexivity |].
    intros c Hin. now apply not_elem_of_nil in Hin.
  - destruct (Z.eqb_spec (keccak256_packed c0) hash) as [Heq | Hne];
      [discriminate |]. intros Hrev.
    destruct (IH Hrev) as [-> Hnone]. split; [reflexivity |].
    intros c Hin. apply elem_of_cons in Hin as [-> | Hin]; auto.
Qed.

Lemma scanCategories_none categories hash :
  (forall c, c ∈ categories -> keccak256_packed c <> hash) ->
  scanCategories categories hash = Revert CategoryNotFound.
Proof.
  intros Hnone.
  destruct (scanCategories categories hash) as [c | f] eqn:Heq.
  - apply scanCategories_Ok in Heq as [Hin Hhash]. now apply Hnone in Hin.
  - now apply scanCategories_Revert in Heq as [-> _].
Qed.

Lemma scanCategories_round_trip categories c :
  c ∈ categories ->
  hash_injective_on categories ->
  scanCategories categories (keccak256_packed c) = Ok c.
Proof.
  intros Hin Hinj.
  destruct (scanCategories categories (keccak256_packed c)) as [c' | f] eqn:Heq.
  - apply scanCategories_Ok in Heq as [Hin' Hhash]. f_equal. now apply Hinj.
  - apply scanCategories_Revert in Heq as [_ Hnone]. now apply Hnone in Hin.
Qed.

(** X17: the reverse lookup [getBiasCategoryFromHash].  A label it returns
    is in the discovery list and has the hash asked for; it fails, with
    CategoryNotFound, exactly when no listed label has that hash; for the
    hash of a listed label it returns a listed label with the same hash,
    and that very label when no two listed labels share a hash. *)
Theorem getBiasCategoryFromHash_lookup (hash : Z) (s : State P) :
  (forall c, getBiasCategoryFromHash hash s = Ok c ->
             c ∈ biasCategoryList s /\ keccak256_packed c = hash) /\
  (forall f, getBiasCategoryFromHash hash s = Revert f -> f = CategoryNotFound) /\
  (getBiasCategoryFromHash hash s = Revert CategoryNotFound
   <-> forall c, c ∈ biasCategoryList s -> keccak256_packed c <> hash) /\
  (forall c, c ∈ biasCategoryList s ->
     (exists c', getBiasCategoryFromHash (keccak256_packed c) s = Ok c'
                 /\ c' ∈ biasCategoryList s
                 /\ keccak256_packed c' = keccak256_packed c) /\
     (hash_injective_on (biasCategoryList s) ->
      getBiasCategoryFromHash (keccak256_packed c) s = Ok c)).
Proof.
  unfold getBiasCategoryFromHash. split; [| split; [| split]].
  - intros c. apply scanCategories_Ok.
  - intros f Hrev. now apply scanCategories_Revert in Hrev.
  - split; [intros Hrev; now apply scanCategories_Revert in Hrev
           | apply scanCategories_none].
  - intros c Hin.
    assert (Hfound : exists c', scanCategories (biasCategoryList s) (keccak256_packed c)
                                = Ok c').
    { destruct (scanCategories _ _) as [c' | f] eqn:Heq; [eauto |].
      apply scanCategories_Revert in Heq as [_ Hnone].
      now apply Hnone in Hin. }
    destruct Hfound as [c' Hc']. pose proof (scanCategories_Ok _ _ _ Hc') as [Hin' Hh].
    split; [eauto |].
    intros Hinj. rewrite Hc'. f_equal. now apply Hinj.
Qed.

(** X18: [decryptBiasCount] stores nothing and announces nothing of its
    own.  When it succeeds, the request named a listed category, the log
    holds exactly what [FHE.checkSignatures] logged, and the storage is what
    it was apart from the library's own state: the decrypted count is
    decoded and dropped.  While the discovery list is empty it fails with
    CategoryNotFound for every analyst and every request id. *)
Theorem decryptBiasCount_stores_nothing (e : Env) (requestId : Z)
    (cleartexts proof : bytes) (s : State P) :
  (forall s' evs,
     exec e (DecryptBiasCount requestId cleartexts proof) s = Ok (s', evs) ->
     (exists logged,
        FHE_checkSignatures (fhe s) requestId cleartexts proof
        = Some (fhe s', logged) /\
        evs = map FromLibrary logged) /\
     s' = with_fhe s (fhe s') /\
     exists category,
       category ∈ biasCategoryList s /\
       keccak256_packed category = request_at s requestId) /\
  (is_analyst s (msg_sender e) = true ->
   biasCategoryList s = [] ->
   exec e (DecryptBiasCount requestId cleartexts proof) s = Revert CategoryNotFound).
Proof.
  split.
  - intros s' evs Heq. cbn [exec] in Heq.
    apply decryptBiasCount_Ok_inv in Heq
      as (category & fhe' & logged & count & _ & Hcat & Hsig & _ & -> & ->).
    split; [exists logged; split; [exact Hsig | reflexivity] |].
    split; [reflexivity |].
    exists category. now apply scanCategories_Ok in Hcat.
  - intros Hauth Hempty. cbn [exec]. unfold decryptBiasCount, getBiasCategoryFromHash.
    rewrite (onlyAnalyst_analyst _ _ Hauth), Hempty. reflexivity.
Qed.

Context {L : PlatformLaws P}.

(** X19: [requestBiasCountDecryption] serves listed categories only.  In a
    reachable state, sent by an analyst, it fails with CategoryNotFound for
    a label that no analysis has produced, and for a listed label, once the
    library accepts the request, it succeeds without an event, maps the new
    request id to the label's hash and leaves all records alone. *)
Theorem requestBiasCountDecryption_listed_only (e : Env) (category : string)
    (s : State P) :
  reachable s ->
  is_analyst s (msg_sender e) = true ->
  (category ∉ biasCategoryList s ->
   exec e (RequestBiasCountDecryption category) s = Revert CategoryNotFound) /\
  (category ∈ biasCategoryList s ->
   forall reqId fhe',
     FHE_requestDecryption (fhe s)
       [FHE_toBytes32 (getEncryptedBiasCount category s)]
       decryptBiasCount_selector = Some (reqId, fhe') ->
     exists s',
       exec e (RequestBiasCountDecryption category) s = Ok (s', []) /\
       request_at s' reqId = keccak256_packed category /\
       requestToArticleId s'
       = <[ reqId := keccak256_packed category ]> (requestToArticleId s) /\
       same_records s s').
Proof.
  intros Hreach Hauth.
  destruct (ledger_inv_reachable s Hreach) as (_ & _ & Hinit).
  cbn [exec]. unfold requestBiasCountDecryption, getEncryptedBiasCount.
  rewrite (onlyAnalyst_analyst _ _ Hauth). cbn. split.
  - intros Hout.
    destruct (FHE_isInitialized (count_at (encryptedBiasCount s) category)) eqn:Hc;
      [| reflexivity].
    apply Hinit in Hc. contradiction.
  - intros Hin reqId fhe' Hlib. apply Hinit in Hin. rewrite Hin, Hlib. cbn.
    eexists. split; [reflexivity |]. split; [| split; [reflexivity |]].
    + unfold request_at. cbn. now rewrite lookup_insert_eq.
    + now repeat split.
Qed.

(** X20: request and callback for a counter fit together.  After a
    successful [requestBiasCountDecryption] for a listed category, with no
    two listed labels sharing a hash, [decryptBiasCount] for the returned
    request id resolves that category and, sent by an analyst with accepted
    signatures and a decodable count, succeeds: its log is what
    [FHE.checkSignatures] logged, and only the library's state changes. *)
Theorem decryptBiasCount_after_request (e e2 : Env) (category : string)
    (s s1 : State P) (evs : list event) (reqId : Z) (cleartexts proof : bytes)
    (fhe2 : FHEState) (logged : list library_event) (count : Z) :
  reachable s ->
  hash_injective_on (biasCategoryList s) ->
  exec e (RequestBiasCountDecryption category) s = Ok (s1, evs) ->
  requestToArticleId s1 !! reqId = Some (keccak256_packed category) ->
  is_analyst s1 (msg_sender e2) = true ->
  FHE_checkSignatures (fhe s1) reqId cleartexts proof = Some (fhe2, logged) ->
  abi_decode_uint32 cleartexts = Some count ->
  getBiasCategoryFromHash (request_at s1 reqId) s1 = Ok category /\
  exec e2 (DecryptBiasCount reqId cleartexts proof) s1
  = Ok (with_fhe s1 fhe2, map FromLibrary logged).
Proof.
  intros Hreach Hinj Hreq Hmap Hauth Hsig Hdec.
  destruct (ledger_inv_reachable s Hreach) as (_ & _ & Hinit).
  cbn [exec] in Hreq.
  pose proof (requestBiasCountDecryption_frame _ _ _ _ _ Hreq) as [Hsame _].
  apply requestBiasCountDecryption_Ok_inv in Hreq
    as (r & f1 & _ & Hc & _ & _ & Hs1).
  apply Hinit in Hc.
  assert (Hlist : biasCategoryList s1 = biasCategoryList s) by apply Hsame.
  assert (Hget : getBiasCategoryFromHash (request_at s1 reqId) s1 = Ok category).
  { unfold request_at, getBiasCategoryFromHash. rewrite Hmap. cbn.
    rewrite <- Hlist in Hc, Hinj. now apply scanCategories_round_trip. }
  split; [exact Hget |].
  cbn [exec]. unfold decryptBiasCount.
  rewrite (onlyAnalyst_analyst _ _ Hauth), Hget. cbn.
  rewrite Hsig. cbn. rewrite Hdec. reflexivity.
Qed.

End Categories.

(** ** From submission to completed analysis *)

Section Lifecycle.
Context {P : Platform}.

Lemma submitEncryptedArticle_Ok_intro e c1 c2 c3 (s : State P) :
  is_analyst s (msg_sender e) = true ->
  0 <= articleCount s < max_uint256 ->
  let newId := articleCount s + 1 in
  submitEncryptedArticle e c1 c2 c3 s
  = Ok ({| articleCount := newId;
           articles :=
             <[ newId := mkEncryptedArticle newId c1 c2 c3 (block_timestamp e) ]>
               (articles s);
           analyses := <[ newId := zeroAnalysis ]> (analyses s);
           encryptedBiasCount := encryptedBiasCount s;
           biasCategoryList := biasCategoryList s;
           requestToArticleId := requestToArticleId s;
           authorizedAnalysts := authorizedAnalysts s;
           fhe := fhe s |},
        [ArticleSubmitted newId (block_timestamp e)]).
Proof.
  intros Hauth Hroom newId. unfold submitEncryptedArticle, add256.
  rewrite (onlyAnalyst_analyst _ _ Hauth). cbn.
  rewrite checked_in_range by lia. reflexivity.
Qed.

Lemma requestBiasAnalysis_Ok_intro e id (s : State P) reqId fhe' :
  is_analyst s (msg_sender e) = true ->
  isAnalyzed (analyses_at s id) = false ->
  FHE_requestDecryption (fhe s) (article_ciphertexts (articles_at s id))
                        analyzeBias_selector = Some (reqId, fhe') ->
  requestBiasAnalysis e id s
  = Ok ({| articleCount := articleCount s;
           articles := articles s;
           analyses := analyses s;
           encryptedBiasCount := encryptedBiasCount s;
           biasCategoryList := biasCategoryList s;
           requestToArticleId := <[ reqId := id ]> (requestToArticleId s);
           authorizedAnalysts := authorizedAnalysts s;
           fhe := fhe' |},
        [AnalysisRequested id]).
Proof.
  intros Hauth Hfresh Hlib. unfold requestBiasAnalysis.
  rewrite (onlyAnalyst_analyst _ _ Hauth), Hfresh, Hlib. reflexivity.
Qed.

(** X21: the three steps fit together.  From any reachable state with room
    in the counter, a submission and a request for the new id by an analyst,
    followed by the callback for the returned request id from any caller,
    with the library accepting the request, the signatures and the calls
    that update the counter, and cleartexts decoding to [uint32] values
    whose weighted sum fits, all succeed: the log is [ArticleSubmitted] and
    [AnalysisRequested] for the new id, then what [FHE.checkSignatures]
    logged, then [AnalysisCompleted]; the article record holds the submitted
    handles, and [getBiasAnalysis] returns the three labels of the decoded
    values with [isAnalyzed = true]. *)
Theorem submit_request_analyze (e caller : Env) (c1 c2 c3 : euint32) (s : State P)
    (reqId : Z) (fhe1 fhe2 f1 f2 f3 : FHEState) (logged : list library_event)
    (base one sum : euint32) (cleartexts proof : bytes)
    (contentScore sentiment keywords : Z) (rest : list Z) :
  reachable s ->
  is_analyst s (msg_sender e) = true ->
  articleCount s < max_uint256 ->
  FHE_requestDecryption (fhe s)
    [FHE_toBytes32 c1; FHE_toBytes32 c2; FHE_toBytes32 c3]
    analyzeBias_selector = Some (reqId, fhe1) ->
  FHE_checkSignatures fhe1 reqId cleartexts proof = Some (fhe2, logged) ->
  abi_decode_uint32_array cleartexts
  = Decoded (contentScore :: sentiment :: keywords :: rest) ->
  is_uint32 contentScore -> is_uint32 sentiment ->
  contentScore * 2 + sentiment * 3 <= max_uint32 ->
  let tier := classifyBiasTier contentScore sentiment in
  let old := getEncryptedBiasCount tier s in
  (if FHE_isInitialized old then Some (old, fhe2) else FHE_asEuint32 fhe2 0)
  = Some (base, f1) ->
  FHE_asEuint32 f1 1 = Some (one, f2) ->
  FHE_add f2 base one = Some (sum, f3) ->
  let id := articleCount s + 1 in
  let history := [(e, SubmitEncryptedArticle c1 c2 c3);
                  (e, RequestBiasAnalysis id);
                  (caller, AnalyzeBias reqId cleartexts proof)] in
  (run history s).2
  = [ArticleSubmitted id (block_timestamp e); AnalysisRequested id]
    ++ map FromLibrary logged ++ [AnalysisCompleted id] /\
  articleCount (run history s).1 = id /\
  articles_at (run history s).1 id
  = mkEncryptedArticle id c1 c2 c3 (block_timestamp e) /\
  getBiasAnalysis id (run history s).1
  = (tier, classifyDeviation contentScore sentiment,
     identifyMediaOutlet keywords, true) /\
  getEncryptedBiasCount tier (run history s).1 = sum.
Proof.
  intros Hreach Hauth Hroom Hlib Hsig Hdec Hc Hs Hfit tier old Hbase Hone Hsum
         id history.
  apply ids_inv_reachable in Hreach as (Hcount & _ & _).
  pose proof (submitEncryptedArticle_Ok_intro e c1 c2 c3 s Hauth
                (conj Hcount Hroom)) as Hsubmit.
  cbv zeta in Hsubmit. fold id in Hsubmit.
  set (s1 := {| articleCount := id;
                articles := <[ id := mkEncryptedArticle id c1 c2 c3
                                        (block_timestamp e) ]> (articles s);
                analyses := <[ id := zeroAnalysis ]> (analyses s);
                encryptedBiasCount := encryptedBiasCount s;
                biasCategoryList := biasCategoryList s;
                requestToArticleId := requestToArticleId s;
                authorizedAnalysts := authorizedAnalysts s;
                fhe := fhe s |}) in *.
  assert (Harticle : articles_at s1 id
                     = mkEncryptedArticle id c1 c2 c3 (block_timestamp e)).
  { unfold articles_at. cbn. now rewrite lookup_insert_eq. }
  assert (Hopen : analyses_at s1 id = zeroAnalysis).
  { unfold analyses_at. cbn. now rewrite lookup_insert_eq. }
  assert (Hrequest : requestBiasAnalysis e id s1
                     = Ok ({| articleCount := articleCount s1;
                              articles := articles s1;
                              analyses := analyses s1;
                              encryptedBiasCount := encryptedBiasCount s1;
                              biasCategoryList := biasCategoryList s1;
                              requestToArticleId :=
                                <[ reqId := id ]> (requestToArticleId s1);
                              authorizedAnalysts := authorizedAnalysts s1;
                              fhe := fhe1 |},
                           [AnalysisRequested id])).
  { apply requestBiasAnalysis_Ok_intro.
    - exact Hauth.
    - now rewrite Hopen.
    - rewrite Harticle. exact Hlib. }
  set (s2 := {| articleCount := articleCount s1;
                articles := articles s1;
                analyses := analyses s1;
                encryptedBiasCount := encryptedBiasCount s1;
                biasCategoryList := biasCategoryList s1;
                requestToArticleId := <[ reqId := id ]> (requestToArticleId s1);
                authorizedAnalysts := authorizedAnalysts s1;
                fhe := fhe1 |}) in *.
  assert (Htarget : request_at s2 reqId = id).
  { unfold request_at. cbn. now rewrite lookup_insert_eq. }
  assert (Hcallback := analyzeBias_Ok_intro reqId cleartexts proof s2
                         contentScore sentiment keywords rest fhe2 logged
                         base f1 one f2 sum f3).
  rewrite Htarget in Hcallback.
  specialize (Hcallback ltac:(subst id; lia) ltac:(exact (f_equal isAnalyzed Hopen))
                        Hsig Hdec Hc Hs Hfit Hbase Hone Hsum).
  cbv zeta in Hcallback.
  subst history.
  rewrite !run_cons_log, !run_cons_state. cbn [exec].
  rewrite Hsubmit. cbn [post emitted].
  rewrite Hrequest. cbn [post emitted].
  rewrite Hcallback. cbn [post emitted run fst snd app].
  rewrite app_nil_r.
  split; [reflexivity |]. split; [reflexivity |]. split; [exact Harticle |].
  split.
  - unfold getBiasAnalysis, analyses_at. cbn. now rewrite lookup_insert_eq.
  - unfold getEncryptedBiasCount, count_at. cbn. now rewrite lookup_insert_eq.
Qed.


End Lifecycle.

(** ** Article ids and replayed callbacks along histories *)

Section Along.
Context {P : Platform}.

Lemma run_app_log txs1 txs2 : forall s : State P,
  (run (txs1 ++ txs2) s).2 = (run txs1 s).2 ++ (run txs2 (run txs1 s).1).2.
Proof.
  induction txs1 as [| [e c] txs1 IH]; intros s; [reflexivity |].
  cbn [app]. now rewrite !run_cons_log, !run_cons_state, IH, app_assoc.
Qed.

Lemma articles_at_run txs (s : State P) id :
  assigned s id ->
  assigned (run txs s).1 id /\ articles_at (run txs s).1 id = articles_at s id.
Proof.
  intros Hid.
  apply (run_invariant
           (fun s' => assigned s' id /\ articles_at s' id = articles_at s id));
    [| now split].
  intros e c s0 [Hid0 Heq]. split.
  - now apply assigned_post.
  - now rewrite articles_at_post.
Qed.

Lemma analyses_at_run txs (s : State P) id :
  assigned s id ->
  isAnalyzed (analyses_at s id) = true ->
  analyses_at (run txs s).1 id = analyses_at s id.
Proof.
  intros Hid Hdone.
  apply (run_invariant
           (fun s' => assigned s' id /\ analyses_at s' id = analyses_at s id));
    [| now split].
  intros e c s0 [Hid0 Heq]. split.
  - now apply assigned_post.
  - rewrite analyses_at_post; [assumption | assumption |]. now rewrite Heq.
Qed.

Lemma requests_kept_run txs (s : State P) reqId :
  is_Some (requestToArticleId s !! reqId) ->
  is_Some (requestToArticleId (run txs s).1 !! reqId).
Proof.
  revert s. apply (run_invariant (fun s => is_Some (requestToArticleId s !! reqId))).
  intros e c s Hin.
  destruct (exec e c s) as [[s' evs] | f] eqn:Heq; cbn [post]; [| exact Hin].
  destruct (requests_step _ _ _ _ _ Heq) as [-> | (r & target & ->)];
    [exact Hin |].
  rewrite lookup_insert. destruct (decide (r = reqId)); [eauto | exact Hin].
Qed.

(** The ids announced from deployment up to some point of a history. *)
Lemma ids_from_deployment e fhe0 txs :
  0 <= articleCount (run txs (constructor (P := P) e fhe0)).1 /\
  submitted_ids (run txs (constructor (P := P) e fhe0)).2
  = seqZ 1 (articleCount (run txs (constructor (P := P) e fhe0)).1).
Proof.
  destruct (run_ids txs (constructor (P := P) e fhe0)) as [Hle Hlog];
    [cbn; lia |].
  cbn [constructor articleCount] in Hle, Hlog. split; [exact Hle |].
  rewrite Hlog. f_equal; lia.
Qed.

(** C8: along every history of transactions from deployment, the article
    ids announced by successful submissions are 1, 2, ..., up to the final
    [articleCount]: they start at 1, each is larger than every earlier
    one, none is 0 and none is announced twice.  They are exactly the ids
    assigned in the final state, and the record stored under each carries
    that id.  Each successful submission of the history is announced under
    the number of earlier successful submissions plus one, which is larger
    than every id announced before it; the slot of that id was empty until
    then, and in the final state it still holds the handles and the block
    time of that very submission: no later submission reuses the id. *)
Theorem submitted_ids_sequential (e : Env) (fhe0 : FHEState)
    (txs : list (Env * call)) :
  let start := constructor (P := P) e fhe0 in
  let final := (run txs start).1 in
  let ids := submitted_ids (run txs start).2 in
  ids = seqZ 1 (articleCount final) /\
  (forall first, head ids = Some first -> first = 1) /\
  (forall i j a b, ids !! i = Some a -> ids !! j = Some b ->
                   (i < j)%nat -> a < b) /\
  (forall i j a, ids !! i = Some a -> ids !! j = Some a -> i = j) /\
  (0 ∉ ids) /\
  NoDup ids /\
  (forall id, id ∈ ids <-> assigned final id) /\
  (forall id, id ∈ ids -> articleId (articles_at final id) = id) /\
  (forall before e' c1 c2 c3 after,
     txs = before ++ (e', SubmitEncryptedArticle c1 c2 c3) :: after ->
     let earlier := submitted_ids (run before start).2 in
     let sb := (run before start).1 in
     let id := Z.of_nat (length earlier) + 1 in
     succeeded (exec e' (SubmitEncryptedArticle c1 c2 c3) sb) = true ->
     emitted (exec e' (SubmitEncryptedArticle c1 c2 c3) sb)
     = [ArticleSubmitted id (block_timestamp e')] /\
     (forall id', id' ∈ earlier -> id' < id) /\
     articles sb !! id = None /\
     ids !! length earlier = Some id /\
     articles_at final id = mkEncryptedArticle id c1 c2 c3 (block_timestamp e')).
Proof.
  intros start final ids.
  destruct (ids_from_deployment e fhe0 txs) as [Hcount Hids].
  fold start in Hcount, Hids. fold final in Hcount, Hids. fold ids in Hids.
  assert (Hreach : reachable final)
    by (apply reachable_run, reachable_constructor).
  rewrite Hids. split; [reflexivity |].
  split.
  { intros first Hhead. rewrite head_lookup in Hhead.
    apply lookup_seqZ in Hhead. lia. }
  split.
  { intros i j a b Ha Hb Hlt. apply lookup_seqZ in Ha, Hb. lia. }
  split.
  { intros i j a Ha Hb. apply lookup_seqZ in Ha, Hb. lia. }
  split.
  { rewrite elem_of_seqZ. lia. }
  split; [apply NoDup_seqZ |].
  split.
  { intros id. rewrite elem_of_seqZ. unfold assigned. lia. }
  split.
  { intros id Hin. apply elem_of_seqZ in Hin.
    apply (articles_self_reachable final Hreach). unfold assigned. lia. }
  intros before e' c1 c2 c3 after Htxs earlier sb id Hok.
  destruct (ids_from_deployment e fhe0 before) as [Hpos Hbefore].
  fold start in Hpos, Hbefore. fold earlier sb in Hpos, Hbefore.
  assert (Hlen : Z.of_nat (length earlier) = articleCount sb)
    by (rewrite Hbefore, length_seqZ; now apply Z2Nat.id).
  destruct (exec e' (SubmitEncryptedArticle c1 c2 c3) sb)
    as [[s' evs] | f] eqn:Hexec; [| discriminate Hok].
  assert (Hsplit : final = (run after s').1).
  { subst final. rewrite Htxs, run_app_state, run_cons_state. fold sb.
    now rewrite Hexec. }
  cbn [exec] in Hexec.
  pose proof (submitEncryptedArticle_Ok_inv _ _ _ _ _ _ _ Hexec)
    as (_ & _ & Hevs & Hnext & _).
  apply submitEncryptedArticle_Ok_full in Hexec. cbv zeta in Hexec, Hevs, Hnext.
  assert (Hid : assigned s' id).
  { unfold assigned, id. rewrite Hnext. lia. }
  destruct (articles_at_run after s' id Hid) as [Hfinal Hkept].
  rewrite <- Hsplit in Hfinal, Hkept.
  cbn [emitted]. split; [| split; [| split; [| split]]].
  - rewrite Hevs. unfold id. now rewrite Hlen.
  - intros id' Hin. rewrite Hbefore in Hin. apply elem_of_seqZ in Hin.
    unfold id. lia.
  - assert (Hsb : reachable sb) by (apply reachable_run, reachable_constructor).
    apply ids_inv_reachable in Hsb as (_ & _ & Hdom).
    apply Hdom. unfold assigned, id. lia.
  - unfold assigned in Hfinal. rewrite lookup_seqZ_lt by (unfold id in Hfinal; lia).
    f_equal. unfold id. lia.
  - rewrite Hkept. subst s'. unfold articles_at, id. cbn [articles].
    rewrite Hlen, lookup_insert_eq. reflexivity.
Qed.

(** C1, as the code has it.  A callback that went through leaves the
    request-id mapping as it was, and no later transaction removes the
    entry.  The same [(requestId, cleartexts, proof)] delivered again in the
    state the first delivery left fails with AlreadyAnalyzed, on the
    article's [isAnalyzed] flag, and changes nothing.  Delivered again after
    any further transactions it still fails with AlreadyAnalyzed and changes
    nothing, provided the request id still maps to the same article id and
    that id had been assigned by a submission when the first delivery was
    made.  Whatever the request id maps to by then decides the outcome: a
    non-zero id whose analysis is marked analyzed gives AlreadyAnalyzed,
    id 0 gives InvalidRequest, and a non-zero id whose analysis is not
    marked analyzed is stopped by neither of the two guards. *)
Theorem analyzeBias_replay_rejected (s s1 : State P) (e1 e2 : Env)
    (requestId : Z) (cleartexts proof : bytes) (evs : list event) :
  exec e1 (AnalyzeBias requestId cleartexts proof) s = Ok (s1, evs) ->
  let id := request_at s requestId in
  let again := exec e2 (AnalyzeBias requestId cleartexts proof) s1 in
  requestToArticleId s1 = requestToArticleId s /\
  request_at s1 requestId <> 0 /\
  isAnalyzed (analyses_at s1 (request_at s1 requestId)) = true /\
  again = Revert AlreadyAnalyzed /\
  post s1 again = s1 /\
  (forall txs,
     let s2 := (run txs s1).1 in
     let later := exec e2 (AnalyzeBias requestId cleartexts proof) s2 in
     is_Some (requestToArticleId s2 !! requestId) /\
     (assigned s id -> request_at s2 requestId = id ->
      later = Revert AlreadyAnalyzed /\ post s2 later = s2) /\
     (request_at s2 requestId <> 0 ->
      isAnalyzed (analyses_at s2 (request_at s2 requestId)) = true ->
      later = Revert AlreadyAnalyzed /\ post s2 later = s2) /\
     (request_at s2 requestId = 0 ->
      later = Revert InvalidRequest /\ post s2 later = s2) /\
     (request_at s2 requestId <> 0 ->
      isAnalyzed (analyses_at s2 (request_at s2 requestId)) = false ->
      later <> Revert AlreadyAnalyzed /\ later <> Revert InvalidRequest)).
Proof.
  intros Hfirst id again. cbn [exec] in Hfirst.
  apply analyzeBias_Ok_inv in Hfirst
    as (analysis' & fhe' & logged & tcounts & tcategories & tfhe
        & Hid & _ & Hdone & _ & _ & _ & Hs1).
  fold id in Hid, Hs1.
  assert (Hmap : requestToArticleId s1 = requestToArticleId s) by now subst s1.
  assert (Hreq : request_at s1 requestId = id)
    by (unfold request_at, id; now rewrite Hmap).
  assert (Hat : analyses_at s1 id = analysis').
  { eapply analyses_at_insert_eq. subst s1. reflexivity. }
  assert (Hflag : isAnalyzed (analyses_at s1 (request_at s1 requestId)) = true)
    by (rewrite Hreq, Hat; exact Hdone).
  assert (Hagain : again = Revert AlreadyAnalyzed).
  { subst again. cbn [exec]. apply analyzeBias_analyzed; [congruence | assumption]. }
  split; [assumption |]. split; [congruence |]. split; [assumption |].
  split; [assumption |]. split; [now rewrite Hagain |].
  intros txs s2 later.
  assert (Hgeneral : request_at s2 requestId <> 0 ->
                     isAnalyzed (analyses_at s2 (request_at s2 requestId)) = true ->
                     later = Revert AlreadyAnalyzed /\ post s2 later = s2).
  { intros Hne Hset.
    assert (Hlater : later = Revert AlreadyAnalyzed)
      by (subst later; cbn [exec]; now apply analyzeBias_analyzed).
    split; [assumption | now rewrite Hlater]. }
  split; [| split; [| split; [| split]]].
  - apply requests_kept_run. unfold request_at in Hreq, Hid.
    destruct (requestToArticleId s1 !! requestId) as [target |] eqn:Hlook;
      [eauto |]. cbn in Hreq. congruence.
  - intros Hassigned Htarget.
    assert (Hassigned1 : assigned s1 id)
      by (subst s1; unfold assigned in *; cbn; exact Hassigned).
    assert (Hdone1 : isAnalyzed (analyses_at s1 id) = true)
      by (rewrite Hat; exact Hdone).
    apply Hgeneral; rewrite Htarget; [exact Hid |]. unfold s2.
    now rewrite (analyses_at_run txs s1 id Hassigned1 Hdone1).
  - exact Hgeneral.
  - intros Hzero.
    assert (Hlater : later = Revert InvalidRequest)
      by (subst later; cbn [exec]; now apply analyzeBias_unknown_request).
    split; [assumption | now rewrite Hlater].
  - intros Hne Hfresh.
    assert (Hcases : forall f, later = Revert f ->
                       f <> AlreadyAnalyzed /\ f <> InvalidRequest).
    { intros f Hf. subst later. cbn [exec] in Hf.
      apply analyzeBias_past_guards in Hf
        as [-> | [-> | [-> | [-> | ->]]]]; [| | | | | assumption ..];
        split; discriminate. }
    split; intros Hf; apply Hcases in Hf as [? ?]; congruence.
Qed.

End Along.

(** ** Identifiers and replays on the reference scenario *)

(** Two submissions by the deployer around one by an account that is not
    an analyst: the ids handed out are 1 and 2, and article 2 is the
    deployer's second submission. *)
Lemma submitted_ids_sequential_witness :
  submitted_ids
    (run [(Reference.deployer, SubmitEncryptedArticle 11 12 13);
          (Reference.stranger, SubmitEncryptedArticle 31 32 33);
          (Reference.deployer, SubmitEncryptedArticle 21 22 23)]
         Reference.deployed).2 = [1; 2]
  /\ articles_at
       (run [(Reference.deployer, SubmitEncryptedArticle 11 12 13);
             (Reference.stranger, SubmitEncryptedArticle 31 32 33);
             (Reference.deployer, SubmitEncryptedArticle 21 22 23)]
            Reference.deployed).1 2
     = mkEncryptedArticle 2 21 22 23 1700000000.
Proof.
  destruct (submitted_ids_sequential (P := Reference.platform)
              Reference.deployer 0
              [(Reference.deployer, SubmitEncryptedArticle 11 12 13);
               (Reference.stranger, SubmitEncryptedArticle 31 32 33);
               (Reference.deployer, SubmitEncryptedArticle 21 22 23)])
    as (Hids & _ & _ & _ & _ & _ & _ & _ & Hper).
  split.
  - etransitivity; [exact Hids | vm_compute; reflexivity].
  - specialize (Hper [(Reference.deployer, SubmitEncryptedArticle 11 12 13);
                      (Reference.stranger, SubmitEncryptedArticle 31 32 33)]
                     Reference.deployer 21 22 23 [] eq_refl).
    cbv zeta in Hper.
    destruct Hper as (_ & _ & _ & _ & Harticle); [vm_compute; reflexivity |].
    etransitivity; [| etransitivity; [exact Harticle |]]; vm_compute; reflexivity.
Defined.

Lemma analyzeBias_replay_rejected_witness :
  requestToArticleId Reference.analyzed = requestToArticleId Reference.requested
  /\ exec Reference.deployer (AnalyzeBias 0 Reference.payload []) Reference.analyzed
     = Revert AlreadyAnalyzed
  /\ exec Reference.deployer (AnalyzeBias 0 Reference.payload [])
       (run [(Reference.deployer, SubmitEncryptedArticle 21 22 23);
             (Reference.deployer, RequestBiasAnalysis 2)]
            Reference.analyzed).1
     = Revert AlreadyAnalyzed.
Proof.
  pose proof (analyzeBias_replay_rejected _ _ _ Reference.deployer _ _ _ _
                analyzed_step) as (Hmap & _ & _ & Hagain & _ & Hlater).
  split; [exact Hmap |]. split; [exact Hagain |].
  destruct (Hlater [(Reference.deployer, SubmitEncryptedArticle 21 22 23);
                    (Reference.deployer, RequestBiasAnalysis 2)])
    as (_ & Hsame & _).
  apply Hsame.
  - unfold assigned. by_evaluation.
  - vm_compute. reflexivity.
Defined.

(** C1 as stated fails: after the callback for request 0 went through, the
    mapping still sends request 0 to article 1, and the same delivery again
    fails with AlreadyAnalyzed, not InvalidRequest. *)
Lemma analyzeBias_replay_counterexample :
  exec Reference.stranger (AnalyzeBias 0 Reference.payload []) Reference.requested
  = Ok (Reference.analyzed,
        [FromLibrary (DecryptionFulfilled 0); AnalysisCompleted 1])
  /\ requestToArticleId Reference.requested !! 0 = Some 1
  /\ requestToArticleId Reference.analyzed !! 0 = Some 1
  /\ exec Reference.stranger (AnalyzeBias 0 Reference.payload []) Reference.analyzed
     = Revert AlreadyAnalyzed
  /\ exec Reference.stranger (AnalyzeBias 0 Reference.payload []) Reference.analyzed
     <> Revert InvalidRequest.
Proof.
  split; [exact analyzed_step |].
  split; [vm_compute; reflexivity |].
  split; [vm_compute; reflexivity |].
  assert (Hagain : exec Reference.stranger (AnalyzeBias 0 Reference.payload [])
                     Reference.analyzed = Revert AlreadyAnalyzed)
    by (apply failure_of_Revert; vm_compute; reflexivity).
  split; [exact Hagain |]. rewrite Hagain. discriminate.
Qed.

(** The [isAnalyzed] flag stops the second delivery only for an id that a
    submission had assigned before the first one.  A request made for id 1
    before any submission is accepted, and so is its callback; the
    submission that then assigns id 1 writes a fresh analysis record, and
    the same callback delivered again goes through a second time and adds
    to the tally again. *)
Lemma analyzeBias_replay_after_late_assignment :
  (run Reference.early_history Reference.deployed).2
  = [AnalysisRequested 1;
     FromLibrary (DecryptionFulfilled 0); AnalysisCompleted 1;
     ArticleSubmitted 1 1700000000]
  /\ request_at Reference.assigned_late 0 = 1
  /\ isAnalyzed (analyses_at Reference.assigned_late 1) = false
  /\ succeeded (exec Reference.stranger (AnalyzeBias 0 Reference.payload [])
                  Reference.assigned_late) = true
  /\ emitted (exec Reference.stranger (AnalyzeBias 0 Reference.payload [])
                Reference.assigned_late)
     = [FromLibrary (DecryptionFulfilled 0); AnalysisCompleted 1]
  /\ getEncryptedBiasCount "HighlyBiased"
       (post Reference.assigned_late
          (exec Reference.stranger (AnalyzeBias 0 Reference.payload [])
             Reference.assigned_late))
     <> getEncryptedBiasCount "HighlyBiased" Reference.assigned_late.
Proof. by_evaluation. Qed.

(** ** The further properties on the reference scenario *)

Lemma assigned_submitted : assigned Reference.submitted 1.
Proof. unfold assigned. by_evaluation. Qed.

Lemma assigned_analyzed : assigned Reference.analyzed 1.
Proof. unfold assigned. by_evaluation. Qed.

Lemma gated_call_unauthorized_witness :
  exec Reference.stranger (SubmitEncryptedArticle 21 22 23) Reference.submitted
  = Revert Unauthorized.
Proof.
  apply (gated_call_unauthorized Reference.stranger
           (SubmitEncryptedArticle 21 22 23) Reference.submitted).
  - vm_compute. reflexivity.
  - reflexivity.
Defined.

Lemma analysts_never_revoked_witness :
  is_analyst
    (run [(Reference.stranger, AuthorizeAnalyst 57005);
          (Reference.deployer, SubmitEncryptedArticle 21 22 23)]
         Reference.deployed).1 4096 = true.
Proof.
  apply (analysts_never_revoked _ Reference.deployed 4096).
  vm_compute. reflexivity.
Defined.

Lemma analyst_provenance_witness :
  exists before e after,
    [(Reference.deployer, AuthorizeAnalyst 57005);
     (Reference.stranger, SubmitEncryptedArticle 21 22 23)]
    = before ++ (e, AuthorizeAnalyst 57005) :: after
    /\ is_analyst (run before Reference.deployed).1 (msg_sender e) = true
    /\ is_analyst (run before Reference.deployed).1 57005 = false.
Proof.
  apply (analyst_provenance _ Reference.deployed 57005).
  - vm_compute. reflexivity.
  - vm_compute. reflexivity.
Defined.

Lemma authorizeAnalyst_grants_witness :
  exists s',
    exec Reference.deployer (AuthorizeAnalyst 4096) Reference.deployed = Ok (s', [])
    /\ s' = Reference.deployed.
Proof.
  assert (Hauth : is_analyst Reference.deployed (msg_sender Reference.deployer) = true)
    by (vm_compute; reflexivity).
  destruct (authorizeAnalyst_grants Reference.deployer 4096 Reference.deployed Hauth)
    as (s' & Hexec & _ & _ & Hsame).
  exists s'. split; [exact Hexec | exact (Hsame Hauth)].
Defined.

Lemma submitEncryptedArticle_stores_witness :
  exists s',
    exec Reference.deployer (SubmitEncryptedArticle 11 12 13) Reference.deployed
    = Ok (s', [ArticleSubmitted 1 1700000000])
    /\ articles_at s' 1 = mkEncryptedArticle 1 11 12 13 1700000000.
Proof.
  assert (Hauth : is_analyst Reference.deployed (msg_sender Reference.deployer) = true)
    by (vm_compute; reflexivity).
  destruct (proj1 (submitEncryptedArticle_stores Reference.deployer 11 12 13
                     Reference.deployed reachable_deployed Hauth))
    as (s' & Hexec & _ & Harticle & _).
  - by_evaluation.
  - exists s'. split; [exact Hexec | exact Harticle].
Defined.

Lemma articles_immutable_witness :
  articles_at
    (run [(Reference.deployer, SubmitEncryptedArticle 21 22 23);
          (Reference.stranger, AnalyzeBias 0 Reference.payload [])]
         Reference.requested).1 1
  = articles_at Reference.requested 1.
Proof.
  apply (articles_immutable _ Reference.requested 1 reachable_requested).
  unfold assigned. by_evaluation.
Defined.

Lemma analysis_final_witness :
  getBiasAnalysis 1
    (run [(Reference.deployer, RequestBiasAnalysis 1);
          (Reference.deployer, SubmitEncryptedArticle 21 22 23);
          (Reference.stranger, AnalyzeBias 0 Reference.payload [])]
         Reference.analyzed).1
  = getBiasAnalysis 1 Reference.analyzed.
Proof.
  apply (analysis_final _ Reference.analyzed 1 assigned_analyzed).
  vm_compute. reflexivity.
Defined.

Lemma analyses_all_or_nothing_witness :
  biasScore (analyses_at Reference.analyzed 1) ∈ bias_tiers
  /\ getBiasAnalysis 2 Reference.analyzed
     = (EmptyString, EmptyString, EmptyString, false).
Proof.
  split.
  - apply (analyses_all_or_nothing Reference.analyzed 1 reachable_analyzed).
    vm_compute. reflexivity.
  - apply (analyses_all_or_nothing Reference.analyzed 2 reachable_analyzed).
    vm_compute. reflexivity.
Defined.

Lemma categories_bounded_witness :
  (length (biasCategoryList Reference.analyzed) <= 4)%nat.
Proof.
  apply (categories_bounded (L := reference_laws) Reference.analyzed
           reachable_analyzed).
Defined.

Lemma completed_at_most_once_witness :
  (completions 1
     (run [(Reference.deployer, RequestBiasAnalysis 1);
           (Reference.stranger, AnalyzeBias 0 Reference.payload []);
           (Reference.stranger, AnalyzeBias 0 Reference.payload [])]
          Reference.submitted).2 <= 1)%nat.
Proof.
  apply (completed_at_most_once _ Reference.submitted 1 assigned_submitted).
Defined.

Lemma analyzeBias_commits_witness :
  exists s',
    exec Reference.stranger (AnalyzeBias 0 Reference.payload []) Reference.requested
    = Ok (s', [FromLibrary (DecryptionFulfilled 0); AnalysisCompleted 1])
    /\ getBiasAnalysis 1 s'
       = ("HighlyBiased", "SignificantDeviation", "OutletC", true)
    /\ getEncryptedBiasCount "HighlyBiased" s' = 5.
Proof.
  destruct (analyzeBias_commits Reference.stranger 0 Reference.payload []
              Reference.requested 90 90 7 [] 1 1 1 1 [DecryptionFulfilled 0]
              1 3 5)
    as (s' & Hexec & Hget & _ & Hcount & _).
  - vm_compute. discriminate.
  - vm_compute. reflexivity.
  - vm_compute. reflexivity.
  - vm_compute. reflexivity.
  - by_evaluation.
  - by_evaluation.
  - by_evaluation.
  - vm_compute. reflexivity.
  - vm_compute. reflexivity.
  - vm_compute. reflexivity.
  - exists s'. split; [exact Hexec | split; [exact Hget | exact Hcount]].
Defined.

Lemma analyzeBias_bad_payload_witness :
  exec Reference.stranger (AnalyzeBias 0 [] []) Reference.requested
  = Revert DecodeFailure
  /\ exec Reference.stranger (AnalyzeBias 0 Reference.oversized [])
          Reference.requested = Revert MemoryOverflow.
Proof.
  assert (Hid : request_at Reference.requested 0 <> 0)
    by (vm_compute; discriminate).
  assert (Hopen : isAnalyzed (analyses_at Reference.requested
                                (request_at Reference.requested 0)) = false)
    by (vm_compute; reflexivity).
  split.
  - refine (proj1 (proj2 (analyzeBias_bad_payload Reference.stranger 0 [] []
                            Reference.requested Hid Hopen)
                         1 [DecryptionFulfilled 0] _) _).
    + vm_compute. reflexivity.
    + vm_compute. reflexivity.
  - refine (proj1 (proj2 (proj2 (analyzeBias_bad_payload Reference.stranger 0
                                   Reference.oversized [] Reference.requested
                                   Hid Hopen)
                                1 [DecryptionFulfilled 0] _)) _).
    + vm_compute. reflexivity.
    + vm_compute. reflexivity.
Defined.

Lemma analyzeBias_unregistered_witness :
  exec Reference.stranger (AnalyzeBias 5 Reference.payload []) Reference.requested
  = Revert InvalidRequest.
Proof.
  apply (analyzeBias_unregistered Reference.stranger 5 Reference.payload []
           Reference.requested).
  left. vm_compute. reflexivity.
Defined.

Lemma listed_analyzed : "HighlyBiased" ∈ biasCategoryList Reference.analyzed.
Proof.
  replace (biasCategoryList Reference.analyzed) with ["HighlyBiased"]
    by (vm_compute; reflexivity).
  apply list_elem_of_here.
Qed.

Lemma hash_injective_analyzed :
  hash_injective_on (P := Reference.platform) (biasCategoryList Reference.analyzed).
Proof.
  replace (biasCategoryList Reference.analyzed) with ["HighlyBiased"]
    by (vm_compute; reflexivity).
  intros c c' Hc Hc' _.
  apply list_elem_of_singleton in Hc, Hc'. congruence.
Qed.

Lemma getBiasCategoryFromHash_lookup_witness :
  getBiasCategoryFromHash
    (@keccak256_packed Reference.platform "HighlyBiased") Reference.analyzed
  = Ok "HighlyBiased".
Proof.
  apply (getBiasCategoryFromHash_lookup
           (@keccak256_packed Reference.platform "HighlyBiased")
           Reference.analyzed).
  - exact listed_analyzed.
  - exact hash_injective_analyzed.
Defined.

Lemma decryptBiasCount_stores_nothing_witness :
  exec Reference.deployer (DecryptBiasCount 0 (Reference.encode_word 1) [])
       Reference.requested = Revert CategoryNotFound.
Proof.
  apply (decryptBiasCount_stores_nothing Reference.deployer 0
           (Reference.encode_word 1) [] Reference.requested).
  - vm_compute. reflexivity.
  - vm_compute. reflexivity.
Defined.

Lemma requestBiasCountDecryption_listed_only_witness :
  exec Reference.deployer (RequestBiasCountDecryption "Neutral") Reference.analyzed
  = Revert CategoryNotFound
  /\ exists s',
       exec Reference.deployer (RequestBiasCountDecryption "HighlyBiased")
            Reference.analyzed = Ok (s', [])
       /\ request_at s' 1 = Reference.hash_string "HighlyBiased".
Proof.
  assert (Hauth : is_analyst Reference.analyzed (msg_sender Reference.deployer) = true)
    by (vm_compute; reflexivity).
  split.
  - apply (requestBiasCountDecryption_listed_only (L := reference_laws)
             Reference.deployer "Neutral" Reference.analyzed
             reachable_analyzed Hauth).
    replace (biasCategoryList Reference.analyzed) with ["HighlyBiased"]
      by (vm_compute; reflexivity).
    intros Hin. apply list_elem_of_singleton in Hin. discriminate Hin.
  - destruct (proj2 (requestBiasCountDecryption_listed_only (L := reference_laws)
                       Reference.deployer "HighlyBiased" Reference.analyzed
                       reachable_analyzed Hauth) listed_analyzed 1 2)
      as (s' & Hexec & Htarget & _).
    + vm_compute. reflexivity.
    + exists s'. split; [exact Hexec | exact Htarget].
Defined.

Lemma decryptBiasCount_after_request_witness :
  let s1 := post Reference.analyzed
              (exec Reference.deployer (RequestBiasCountDecryption "HighlyBiased")
                    Reference.analyzed) in
  exec Reference.deployer (DecryptBiasCount 1 (Reference.encode_word 1) []) s1
  = Ok (with_fhe s1 2, [FromLibrary (DecryptionFulfilled 1)]).
Proof.
  intros s1.
  refine (proj2 (decryptBiasCount_after_request (L := reference_laws)
                   Reference.deployer Reference.deployer "HighlyBiased"
                   Reference.analyzed s1 _ 1 (Reference.encode_word 1) [] 2
                   [DecryptionFulfilled 1] 1
                   reachable_analyzed hash_injective_analyzed
                   (succeeded_exec _ _ _ _) _ _ _ _)).
  - vm_compute. reflexivity.
  - vm_compute. reflexivity.
  - vm_compute. reflexivity.
  - vm_compute. reflexivity.
  - vm_compute. reflexivity.
Defined.

Lemma submit_request_analyze_witness :
  getBiasAnalysis 1
    (run [(Reference.deployer, SubmitEncryptedArticle 11 12 13);
          (Reference.deployer, RequestBiasAnalysis 1);
          (Reference.stranger, AnalyzeBias 0 Reference.payload [])]
         Reference.deployed).1
  = ("HighlyBiased", "SignificantDeviation", "OutletC", true).
Proof.
  refine (proj1 (proj2 (proj2 (proj2
            (submit_request_analyze Reference.deployer Reference.stranger 11 12 13
               Reference.deployed 0 1 1 1 1 1 [DecryptionFulfilled 0] 1 3 5
               Reference.payload [] 90 90 7 []
               reachable_deployed _ _ _ _ _ _ _ _ _ _ _))))).
  - vm_compute. reflexivity.
  - by_evaluation.
  - vm_compute. reflexivity.
  - vm_compute. reflexivity.
  - vm_compute. reflexivity.
  - by_evaluation.
  - by_evaluation.
  - by_evaluation.
  - vm_compute. reflexivity.
  - vm_compute. reflexivity.
  - vm_compute. reflexivity.
Defined.

